(** * A 3D U-Net graph builder (unet_3D.py), embedded and verified

    The program assembles a Keras computation graph: every layer call
    [L(args)(x)] creates one operation, wires it to its input tensors and
    hands back a fresh symbolic tensor.  Nothing numeric happens at
    construction time, so the embedding is a state-and-error monad over the
    list of operations created so far.

    - Python integers are [Z]; the growth rate [inc_rate] is a Python number,
      an [int] or a [float]: a float is an IEEE 754 binary64 value
      ([spec_float]), the product [inc * dim] is rounded to nearest even as
      the interpreter does, and [int(...)] truncates it or raises on an
      infinity or a NaN;
    - truthiness tests ([if do], [if bn], ...) are written out;
    - the tensor library is an interface ([Backend]): what shape a layer
      gives on given input shapes, or that it refuses them.  [keras] is the
      instance with the shape rules of the Keras layers that the file
      imports: it says which shape an accepted call has; the library itself
      may refuse more calls than these rules do (an activation name it does
      not know, sizes it cannot allocate), so what is proved with [keras]
      about a returned result carries over to the library, and that a result
      is returned is stated for the libraries that accept the calls made.
    Limits of the interpreter (recursion depth, memory) are outside the
    model. *)

From Stdlib Require Import String ZArith QArith List Bool Lia.
From Stdlib Require Import SpecFloat.
Import ListNotations.
Open Scope Z_scope.

(** ** Data model *)

(** A tensor shape without the batch axis, as handed to [Input(shape=...)]:
    for this network [(depth, height, width, channels)].  Every extent is a
    known integer (an extent left open with [None] is not modelled). *)
Definition shape := list Z.

Inductive padding := valid | same.

(** The layer constructors the file uses, with the arguments it passes.
    [kernel_size] and [strides] are always given as one integer, which Keras
    applies to each of the three spatial axes.  [activation = None] is the
    constructor's default (linear). *)
Inductive layer :=
| Input (img_shape : shape)
| Conv3D (filters kernel_size strides : Z) (activation : option string)
         (pad : padding)
| BatchNormalization
| Dropout (rate : Q)
| MaxPooling3D (pool_size : Z * Z * Z)
| UpSampling3D (size : Z * Z * Z)
| Concatenate.

(** A symbolic tensor: a handle (its creation index) and its static shape. *)
Record tensor := { tid : nat; tshape : shape }.

(** One node of the graph: a layer applied to input tensors. *)
Record op := { op_layer : layer; op_inputs : list tensor; op_output : tensor }.

(** The graph under construction, most recently created operation first. *)
Definition graph := list op.

(** [Exception] is what the program itself raises; [BackendError] is an
    error raised inside the tensor library when it refuses a layer call;
    [OverflowError] and [ValueError] are what the interpreter raises when a
    number cannot be converted. *)
Inductive error :=
| Exception (msg : string)
| BackendError (l : layer) (ins : list shape)
| OverflowError
| ValueError.

(** ** The construction monad *)

Definition M (A : Type) := graph -> error + (A * graph).

Definition ret {A} (a : A) : M A := fun g => inr (a, g).

Definition bind {A B} (c : M A) (f : A -> M B) : M B :=
  fun g => match c g with
           | inl e => inl e
           | inr (a, g') => f a g'
           end.

Definition raise {A} (e : error) : M A := fun _ => inl e.

(** A computation that does not touch the graph. *)
Definition lift {A} (r : error + A) : M A :=
  fun g => match r with
           | inl e => inl e
           | inr a => inr (a, g)
           end.

Declare Scope build_scope.
Delimit Scope build_scope with build.
Notation "x <- c ;; k" := (bind c (fun x => k))
  (at level 61, c at next level, right associativity) : build_scope.
Open Scope build_scope.

(** ** The tensor library as an interface *)

Class Backend := {
  compute_output_shape : layer -> list shape -> option shape
}.

(** Record an operation whose output has shape [s]; its output tensor is
    fresh. *)
Definition emit (l : layer) (ins : list tensor) (s : shape) : M tensor :=
  fun g =>
    let t := {| tid := length g; tshape := s |} in
    inr (t, {| op_layer := l; op_inputs := ins; op_output := t |} :: g).

(** [L(...)(ins)]: ask the library for the output shape; on success record
    the operation and return its output tensor. *)
Definition call `{Backend} (l : layer) (ins : list tensor) : M tensor :=
  fun g =>
    match compute_output_shape l (map tshape ins) with
    | None => inl (BackendError l (map tshape ins))
    | Some s => emit l ins s g
    end.

(** An error that the tensor library raised on a layer call it refuses. *)
Definition backend_refusal `{Backend} (e : error) : Prop :=
  exists l ins, e = BackendError l ins /\ compute_output_shape l ins = None.

(** ** Python helpers *)

(** Truth value of a Python number: false exactly for zero. *)
Definition truthy (q : Q) : bool := negb (Qnum q =? 0).

(** A Python number: an [int], or a [float] (binary64). *)
Inductive number :=
| PyInt (z : Z)
| PyFloat (f : spec_float).

Definition prec : Z := 53.
Definition emax : Z := 1024.

(** An [int] as a [float]: rounded to nearest even; too large a value is an
    [OverflowError]. *)
Definition float_of_int (z : Z) : error + spec_float :=
  match binary_normalize prec emax z 0 false with
  | S754_infinity _ => inl OverflowError
  | f => inr f
  end.

(** [x * n] for a number [x] and an [int] [n]: exact on two [int]s; with a
    [float], [n] is converted and the product is rounded. *)
Definition mul (x : number) (n : Z) : error + number :=
  match x with
  | PyInt z => inr (PyInt (z * n))
  | PyFloat f =>
      match float_of_int n with
      | inl e => inl e
      | inr d => inr (PyFloat (SFmul prec emax f d))
      end
  end.

(** [int(x)]: an [int] is itself; a [float] is truncated towards zero; an
    infinity is an [OverflowError] and a NaN a [ValueError]. *)
Definition int (x : number) : error + Z :=
  match x with
  | PyInt z => inr z
  | PyFloat (S754_zero _) => inr 0
  | PyFloat (S754_infinity _) => inl OverflowError
  | PyFloat S754_nan => inl ValueError
  | PyFloat (S754_finite s m e) =>
      let magnitude := Z.shiftl (Zpos m) e in
      inr (if s then - magnitude else magnitude)
  end.

(** [int(inc * dim)] *)
Definition int_mul (inc : number) (dim : Z) : error + Z :=
  match mul inc dim with
  | inl e => inl e
  | inr x => int x
  end.

(** The [float] written [a / b] in decimal, as the parser rounds it: the
    binary64 value nearest to the quotient, for [a] and [b] below [2^53]
    ([py_float 115 100] is the literal [1.15], [py_float 2 1] is [2.]). *)
Definition py_float (a : Z) (b : positive) : number :=
  PyFloat (SFdiv prec emax (binary_normalize prec emax a 0 false)
                 (binary_normalize prec emax (Zpos b) 0 false)).

Definition no_upsampling_msg : string :=
  "Unet in 3D does not work without upsampling".

(** ** The program *)

Section Program.
Context `{Backend}.

(** [conv_block(m, dim, acti, bn, res, do=0)] *)
Definition conv_block (m : tensor) (dim : Z) (acti : string) (bn res : bool)
    (do : Q) : M tensor :=
  n <- call (Conv3D dim 3 1 (Some acti) same) [m] ;;
  n <- (if bn then call BatchNormalization [n] else ret n) ;;
  n <- (if truthy do then call (Dropout do) [n] else ret n) ;;
  n <- call (Conv3D dim 3 1 (Some acti) same) [n] ;;
  n <- (if bn then call BatchNormalization [n] else ret n) ;;
  if res then call Concatenate [m; n] else ret n.

(** [level_block(m, dim, depth, inc, acti, do, bn, mp, up, res)], by
    recursion on the number [k] of levels still to open: [S k] is the branch
    [depth > 0] and recurses with [depth - 1]; [O] is the [else] branch.
    The arguments of the recursive call are evaluated before it, so
    [int(inc * dim)] is computed, or raises, after the downsampling. *)
Fixpoint level_block_rec (k : nat) (m : tensor) (dim : Z) (inc : number)
    (acti : string) (do : Q) (bn mp up res : bool) : M tensor :=
  match k with
  | S k' =>
      n <- conv_block m dim acti bn res 0 ;;
      m <- (if mp then call (MaxPooling3D (1, 2, 2)) [n]
            else call (Conv3D dim 3 2 None same) [n]) ;;
      dim' <- lift (int_mul inc dim) ;;
      m <- level_block_rec k' m dim' inc acti do bn mp up res ;;
      m <- (if up then
              m <- call (UpSampling3D (1, 2, 2)) [m] ;;
              call (Conv3D dim 2 1 (Some acti) same) [m]
            else raise (Exception no_upsampling_msg)) ;;
      n <- call Concatenate [n; m] ;;
      conv_block n dim acti bn res 0
  | O => conv_block m dim acti bn res do
  end.

(** The Python function takes an integer [depth]; a value that is not
    positive goes straight to the [else] branch. *)
Definition level_block (m : tensor) (dim : Z) (depth : Z) (inc : number)
    (acti : string) (do : Q) (bn mp up res : bool) : M tensor :=
  level_block_rec (Z.to_nat depth) m dim inc acti do bn mp up res.

(** [Model(inputs=i, outputs=o)] together with the operations it owns. *)
Record Model := { inputs : tensor; outputs : tensor; layers : graph }.

(** [UNet(img_shape, out_ch, start_ch, depth, inc_rate, activation, dropout,
    batchnorm, maxpool, upconv, residual)], run on the empty graph. *)
Definition UNet (img_shape : shape) (out_ch start_ch depth : Z)
    (inc_rate : number) (activation : string) (dropout : Q)
    (batchnorm maxpool upconv residual : bool) : error + Model :=
  match
    (i <- call (Input img_shape) [] ;;
     o <- level_block i start_ch depth inc_rate activation dropout
            batchnorm maxpool upconv residual ;;
     o <- call (Conv3D out_ch 1 1 (Some "sigmoid"%string) valid) [o] ;;
     ret (i, o)) []
  with
  | inl e => inl e
  | inr ((i, o), g) => inr {| inputs := i; outputs := o; layers := g |}
  end.

End Program.

(** ** The Keras shape rules *)

(** [conv_utils.conv_output_length] (no dilation). *)
Definition conv_output_length (input_length filter_size : Z) (p : padding)
    (stride : Z) : Z :=
  let output_length :=
    match p with
    | same => input_length
    | valid => input_length - filter_size + 1
    end in
  (output_length + stride - 1) / stride.

Fixpoint dims_eqb (a b : list Z) : bool :=
  match a, b with
  | [], [] => true
  | x :: a', y :: b' => (x =? y) && dims_eqb a' b'
  | _, _ => false
  end.

(** [Concatenate] on the last axis, called on at least two tensors: every
    input has the same shape apart from its last entry; the last entries
    add up. *)
Fixpoint concat_shapes (front : list Z) (ch : Z) (rest : list shape)
  : option shape :=
  match rest with
  | [] => Some (front ++ [ch])
  | s :: rest' =>
      if dims_eqb (removelast s) front && negb (length s =? 0)%nat
      then concat_shapes front (ch + last s 0) rest'
      else None
  end.

Definition keras_output_shape (l : layer) (ins : list shape) : option shape :=
  match l, ins with
  | Input s, [] => Some s
  | Conv3D f k s _ p, [[d; h; w; _]] =>
      Some [conv_output_length d k p s; conv_output_length h k p s;
            conv_output_length w k p s; f]
  | BatchNormalization, [s] => Some s
  | Dropout _, [s] => Some s
  | MaxPooling3D (pd, ph, pw), [[d; h; w; c]] =>
      Some [conv_output_length d pd valid pd; conv_output_length h ph valid ph;
            conv_output_length w pw valid pw; c]
  | UpSampling3D (sd, sh, sw), [[d; h; w; c]] => Some [sd * d; sh * h; sw * w; c]
  | Concatenate, s :: rest =>
      match s, rest with
      | [], _ | _, [] => None
      | _, _ => concat_shapes (removelast s) (last s 0) rest
      end
  | _, _ => None
  end.

#[export] Instance keras : Backend :=
  {| compute_output_shape := keras_output_shape |}.

(** What [conv_block] comes to under these rules on a tensor of shape
    [(d, h, w, c)]: every call is accepted, with the shape written here. *)
Definition conv_block_keras (m : tensor) (d h w c : Z) (dim : Z)
    (acti : string) (bn res : bool) (do : Q) : M tensor :=
  n <- emit (Conv3D dim 3 1 (Some acti) same) [m] [d; h; w; dim] ;;
  n <- (if bn then emit BatchNormalization [n] [d; h; w; dim] else ret n) ;;
  n <- (if truthy do then emit (Dropout do) [n] [d; h; w; dim] else ret n) ;;
  n <- emit (Conv3D dim 3 1 (Some acti) same) [n] [d; h; w; dim] ;;
  n <- (if bn then emit BatchNormalization [n] [d; h; w; dim] else ret n) ;;
  if res then emit Concatenate [m; n] [d; h; w; c + dim] else ret n.

(** ** Reading a graph *)

(** The layers of the operations that [conv_block] creates, newest first. *)
Definition conv_block_layers (dim : Z) (acti : string) (bn res : bool)
    (do : Q) : list layer :=
  (if res then [Concatenate] else []) ++
  (if bn then [BatchNormalization] else []) ++
  [Conv3D dim 3 1 (Some acti) same] ++
  (if truthy do then [Dropout do] else []) ++
  (if bn then [BatchNormalization] else []) ++
  [Conv3D dim 3 1 (Some acti) same].

(** The channel count of the next level on a run that gets there. *)
Definition next_dim (inc : number) (dim : Z) : Z :=
  match int_mul inc dim with
  | inr dim' => dim'
  | inl _ => dim
  end.

(** The layers of the operations that a completed [level_block] creates,
    newest first: decoder block, merge, up-convolution, upsampling, the
    inner levels, downsampling, encoder block. *)
Fixpoint level_block_layers (k : nat) (dim : Z) (inc : number) (acti : string)
    (do : Q) (bn mp res : bool) : list layer :=
  match k with
  | S k' =>
      conv_block_layers dim acti bn res 0 ++
      [Concatenate; Conv3D dim 2 1 (Some acti) same; UpSampling3D (1, 2, 2)] ++
      level_block_layers k' (next_dim inc dim) inc acti do bn mp res ++
      [if mp then MaxPooling3D (1, 2, 2) else Conv3D dim 3 2 None same] ++
      conv_block_layers dim acti bn res 0
  | O => conv_block_layers dim acti bn res do
  end.

(** The convolutions of the blocks are the only ones with kernel size 3 and
    stride 1 (the downsampling one has stride 2, the up-convolution kernel
    size 2, the final one kernel size 1).  [block_filters] lists their
    channel counts. *)
Definition block_filter (l : layer) : list Z :=
  match l with
  | Conv3D f k s _ _ => if (k =? 3) && (s =? 1) then [f] else []
  | _ => []
  end.

Definition block_filters (ls : list layer) : list Z := flat_map block_filter ls.

(** The recursion levels in the order in which their blocks appear in the
    graph: level [d] opens with its encoder block and closes with its
    decoder block, two convolutions each; level 0 is the bottleneck. *)
Fixpoint level_order (d : nat) : list nat :=
  match d with
  | O => [O; O]
  | S d' => [d; d] ++ level_order d' ++ [d; d]
  end.

(** Block convolutions and dropouts, in graph order. *)
Inductive mark := BlockConv | Drop (rate : Q).

Definition mark_of (l : layer) : list mark :=
  match l with
  | Conv3D _ k s _ _ => if (k =? 3) && (s =? 1) then [BlockConv] else []
  | Dropout r => [Drop r]
  | _ => []
  end.

Definition marks (ls : list layer) : list mark := flat_map mark_of ls.

Definition is_dropout (l : layer) : bool :=
  match l with Dropout _ => true | _ => false end.

Definition is_batchnorm (l : layer) : bool :=
  match l with BatchNormalization => true | _ => false end.

Definition is_pointwise_conv (l : layer) : bool :=
  match l with Conv3D _ k _ _ _ => k =? 1 | _ => false end.

Definition count_layers (p : layer -> bool) (g : graph) : nat :=
  length (filter p (map op_layer g)).

Definition is_drop_mark (k : mark) : bool :=
  match k with Drop _ => true | BlockConv => false end.

(** The channel count that reaches the level [j] steps below the top: line
    48 of the source, [int(inc * dim)], applied [j] times to [start_ch], or
    the error of the first of these steps that raises. *)
Fixpoint level_dim (start_ch : Z) (inc : number) (j : nat) : error + Z :=
  match j with
  | O => inr start_ch
  | S j' =>
      match level_dim start_ch inc j' with
      | inl e => inl e
      | inr dim => int_mul inc dim
      end
  end.

(** The library [B] gives every operation of [g] the shape recorded for
    it. *)
Definition accepts (B : Backend) (g : graph) : bool :=
  forallb (fun o =>
             match @compute_output_shape B (op_layer o)
                     (map tshape (op_inputs o)) with
             | Some s => dims_eqb s (tshape (op_output o))
             | None => false
             end) g.

(** The step [c], run with the library [B0], only adds operations, with
    the shapes that [B0] gives them; and the step [cB], run with the library
    [B], does what [c] did as long as [B] accepts these operations. *)
Definition follows {A} (B0 B : Backend) (c cB : M A) : Prop :=
  forall g a g',
    c g = inr (a, g') ->
    exists new,
      g' = new ++ g /\
      accepts B0 new = true /\
      (accepts B new = true -> cB g = inr (a, g')).

(** A library that refuses nothing. *)
Definition accept_all : Backend :=
  {| compute_output_shape := fun _ ins => Some (concat ins) |}.

(** What is common to two graphs that differ in normalization nodes only:
    every other operation, in order, with its layer (hence its parameters),
    the shapes of its inputs and the shape of its output. *)
Definition skeleton (g : graph) : list (layer * list shape * shape) :=
  map (fun o => (op_layer o, map tshape (op_inputs o), tshape (op_output o)))
      (filter (fun o => negb (is_batchnorm (op_layer o))) g).

(** Two runs that end alike: the same error, or tensors of the same shape
    in graphs with the same skeleton. *)
Definition same_outcome (r1 r2 : error + (tensor * graph)) : Prop :=
  match r1, r2 with
  | inl e1, inl e2 => e1 = e2
  | inr (t1, g1), inr (t2, g2) =>
      tshape t1 = tshape t2 /\ skeleton g1 = skeleton g2
  | _, _ => False
  end.

(** Block convolutions ([false]) and normalizations ([true]), in graph
    order. *)
Definition norm_mark_of (l : layer) : list bool :=
  match l with
  | Conv3D _ k s _ _ => if (k =? 3) && (s =? 1) then [false] else []
  | BatchNormalization => [true]
  | _ => []
  end.

Definition norm_marks (ls : list layer) : list bool :=
  flat_map norm_mark_of ls.

(** ** Well-formed graphs and a census of layers *)

Definition tensor_eqb (a b : tensor) : bool :=
  (tid a =? tid b)%nat && dims_eqb (tshape a) (tshape b).

(** [t] is the output of an operation of [g]. *)
Definition defined_in (g : graph) (t : tensor) : bool :=
  existsb (fun o => tensor_eqb (op_output o) t) g.

(** How many tensors the program hands to each layer. *)
Definition arity (l : layer) : nat :=
  match l with
  | Input _ => 0
  | Concatenate => 2
  | _ => 1
  end.

(** Every operation has a fresh output (its handle is its creation index),
    as many inputs as its layer takes, and inputs that are outputs of
    operations created before it. *)
Fixpoint wf_graph (g : graph) : bool :=
  match g with
  | [] => true
  | o :: g' =>
      (tid (op_output o) =? length g')%nat &&
      (length (op_inputs o) =? arity (op_layer o))%nat &&
      forallb (defined_in g') (op_inputs o) &&
      wf_graph g'
  end.

(** A step that, started in a well-formed graph in which the tensors [ins]
    are defined, leaves a well-formed graph in which its result is defined
    and nothing is lost. *)
Definition builds_on (ins : list tensor) (c : M tensor) : Prop :=
  forall g t g',
    wf_graph g = true ->
    forallb (defined_in g) ins = true ->
    c g = inr (t, g') ->
    wf_graph g' = true /\
    defined_in g' t = true /\
    (forall x, defined_in g x = true -> defined_in g' x = true).

(** The roles that a layer can play in the network. *)
Inductive kind :=
| KInput | KBlockConv | KStridedConv | KUpConv | KPointwiseConv
| KNorm | KDropout | KPooling | KUpSampling | KConcat.

Definition kind_of (l : layer) : kind :=
  match l with
  | Input _ => KInput
  | Conv3D _ k s _ _ =>
      if k =? 1 then KPointwiseConv
      else if k =? 2 then KUpConv
      else if s =? 2 then KStridedConv
      else KBlockConv
  | BatchNormalization => KNorm
  | Dropout _ => KDropout
  | MaxPooling3D _ => KPooling
  | UpSampling3D _ => KUpSampling
  | Concatenate => KConcat
  end.

Definition kind_eqb (a b : kind) : bool :=
  match a, b with
  | KInput, KInput | KBlockConv, KBlockConv | KStridedConv, KStridedConv
  | KUpConv, KUpConv | KPointwiseConv, KPointwiseConv | KNorm, KNorm
  | KDropout, KDropout | KPooling, KPooling | KUpSampling, KUpSampling
  | KConcat, KConcat => true
  | _, _ => false
  end.

Definition count_kind (kd : kind) (ls : list layer) : nat :=
  length (filter (fun l => kind_eqb (kind_of l) kd) ls).

(** The parameters with which the program creates each layer of a network
    configured with [img_shape], [out_ch], [activation], [dropout],
    [batchnorm] and [maxpool]. *)
Definition as_configured (img_shape : shape) (out_ch : Z)
    (activation : string) (dropout : Q) (batchnorm maxpool : bool)
    (l : layer) : Prop :=
  match l with
  | Input s => s = img_shape
  | Conv3D f k s a p =>
      match kind_of l with
      | KBlockConv => k = 3 /\ s = 1 /\ a = Some activation /\ p = same
      | KStridedConv =>
          k = 3 /\ s = 2 /\ a = None /\ p = same /\ maxpool = false
      | KUpConv => k = 2 /\ s = 1 /\ a = Some activation /\ p = same
      | _ => k = 1 /\ s = 1 /\ a = Some "sigmoid"%string /\ p = valid /\
             f = out_ch
      end
  | BatchNormalization => batchnorm = true
  | Dropout r => r = dropout /\ truthy dropout = true
  | MaxPooling3D ps => ps = (1, 2, 2) /\ maxpool = true
  | UpSampling3D sz => sz = (1, 2, 2)
  | Concatenate => True
  end.

(** * Properties *)

(** ** Running the monad *)

Lemma bind_inr {A B} (c : M A) (f : A -> M B) g r :
  bind c f g = inr r -> exists a g1, c g = inr (a, g1) /\ f a g1 = inr r.
Proof.
  unfold bind. destruct (c g) as [e | [a g1]]; [discriminate |].
  intros Hf. exists a, g1. split; [reflexivity | exact Hf].
Qed.

Lemma bind_inl {A B} (c : M A) (f : A -> M B) g e :
  bind c f g = inl e ->
  c g = inl e \/ exists a g1, c g = inr (a, g1) /\ f a g1 = inl e.
Proof.
  unfold bind. destruct (c g) as [e' | [a g1]].
  - intros [= ->]. now left.
  - intros Hf. right. now exists a, g1.
Qed.

Lemma bind_run {A B} (c : M A) (f : A -> M B) g a g1 :
  c g = inr (a, g1) -> bind c f g = f a g1.
Proof. unfold bind. now intros ->. Qed.

Lemma dims_eqb_refl a : dims_eqb a a = true.
Proof.
  induction a as [| x a IH]; [reflexivity |].
  cbn. now rewrite Z.eqb_refl.
Qed.

Lemma dims_eqb_eq a : forall b, dims_eqb a b = true -> a = b.
Proof.
  induction a as [| x a IH]; intros [| y b] Hab; try discriminate;
    [reflexivity |].
  cbn in Hab. apply andb_true_iff in Hab as [Hxy Hab].
  apply Z.eqb_eq in Hxy. now rewrite Hxy, (IH b Hab).
Qed.

Lemma lift_inr {A} (r : error + A) g a g' :
  lift r g = inr (a, g') -> r = inr a /\ g' = g.
Proof. unfold lift. destruct r; [discriminate |]. now intros [= -> ->]. Qed.

Lemma lift_inl {A} (r : error + A) g e : lift r g = inl e -> r = inl e.
Proof. unfold lift. destruct r; [now intros [= ->] | discriminate]. Qed.

Lemma next_dim_inr inc dim dim' : int_mul inc dim = inr dim' -> next_dim inc dim = dim'.
Proof. unfold next_dim. now intros ->. Qed.

(** The count [j + 1] levels down is the count [j] levels below the next
    level. *)
Lemma level_dim_step dim inc j :
  level_dim dim inc (S j) =
  match int_mul inc dim with
  | inl e => inl e
  | inr dim' => level_dim dim' inc j
  end.
Proof.
  induction j as [| j IH].
  - cbn [level_dim]. now destruct (int_mul inc dim).
  - change (level_dim dim inc (S (S j))) with
      (match level_dim dim inc (S j) with
       | inl e => inl e
       | inr d => int_mul inc d
       end).
    rewrite IH. now destruct (int_mul inc dim).
Qed.

Section Generic.
Context `{Backend}.

Lemma call_inr l ins g t g' :
  call l ins g = inr (t, g') ->
  g' = {| op_layer := l; op_inputs := ins; op_output := t |} :: g /\
  tid t = length g /\
  compute_output_shape l (map tshape ins) = Some (tshape t).
Proof.
  unfold call, emit.
  destruct (compute_output_shape l (map tshape ins)) as [s |];
    [| discriminate].
  intros [= <- <-]. auto.
Qed.

Lemma call_inl l ins g e : call l ins g = inl e -> backend_refusal e.
Proof.
  unfold call.
  destruct (compute_output_shape l (map tshape ins)) as [s |] eqn:E;
    [discriminate |].
  intros [= <-]. now exists l, (map tshape ins).
Qed.

(** A step that is a layer call under a flag, or nothing. *)
Lemma opt_call_inr (b : bool) l (n : tensor) g t g' :
  (if b then call l [n] else ret n) g = inr (t, g') ->
  exists new, g' = new ++ g /\ map op_layer new = (if b then [l] else []).
Proof.
  destruct b.
  - intros Hc. apply call_inr in Hc as (-> & _ & _).
    now eexists [_].
  - intros [= <- <-]. now exists [].
Qed.

Lemma opt_call_inl (b : bool) l (n : tensor) g e :
  (if b then call l [n] else ret n) g = inl e -> backend_refusal e.
Proof. destruct b; [apply call_inl | discriminate]. Qed.

(** [conv_block] only adds operations, and which layers they are depends
    on its flags alone. *)
Lemma conv_block_inr m dim acti bn res do g t g' :
  conv_block m dim acti bn res do g = inr (t, g') ->
  exists new, g' = new ++ g /\
              map op_layer new = conv_block_layers dim acti bn res do.
Proof.
  unfold conv_block. intros Hrun.
  apply bind_inr in Hrun as (n1 & g1 & H1 & Hrun).
  apply bind_inr in Hrun as (n2 & g2 & H2 & Hrun).
  apply bind_inr in Hrun as (n3 & g3 & H3 & Hrun).
  apply bind_inr in Hrun as (n4 & g4 & H4 & Hrun).
  apply bind_inr in Hrun as (n5 & g5 & H5 & Hrun).
  apply call_inr in H1 as (-> & _ & _).
  apply opt_call_inr in H2 as (new2 & -> & E2).
  apply opt_call_inr in H3 as (new3 & -> & E3).
  apply call_inr in H4 as (-> & _ & _).
  apply opt_call_inr in H5 as (new5 & -> & E5).
  assert (exists new6, g' = new6 ++ new5 ++
            {| op_layer := Conv3D dim 3 1 (Some acti) same;
               op_inputs := [n3]; op_output := n4 |} :: new3 ++ new2 ++
            {| op_layer := Conv3D dim 3 1 (Some acti) same;
               op_inputs := [m]; op_output := n1 |} :: g /\
          map op_layer new6 = if res then [Concatenate] else [])
    as (new6 & -> & E6).
  { destruct res.
    - apply call_inr in Hrun as (-> & _ & _). now eexists [_].
    - injection Hrun as <- <-. now exists []. }
  eexists (new6 ++ new5 ++ _ :: new3 ++ new2 ++ [_]). split.
  - now rewrite <- !app_assoc, <- !app_comm_cons, <- !app_assoc.
  - unfold conv_block_layers.
    now rewrite !map_app, E6, E5, map_cons, !map_app, E3, E2.
Qed.

Lemma conv_block_inl m dim acti bn res do g e :
  conv_block m dim acti bn res do g = inl e -> backend_refusal e.
Proof.
  unfold conv_block. intros Hrun.
  repeat (apply bind_inl in Hrun as [Hrun | (? & ? & _ & Hrun)];
          [first [now apply call_inl in Hrun
                 | now apply opt_call_inl in Hrun] |]).
  destruct res; [now apply call_inl in Hrun | discriminate].
Qed.

(** What [conv_block] returns, whatever the library: [n] is the result of
    the second convolution, or of its normalization; the block returns [n],
    or the concatenation of its own input [m] with [n]. *)
Lemma conv_block_result m dim acti bn res do g t g' :
  conv_block m dim acti bn res do g = inr (t, g') ->
  exists x conv2 n pre,
    g' = (if res
          then [{| op_layer := Concatenate; op_inputs := [m; n];
                   op_output := t |}]
          else []) ++
         (if bn
          then [{| op_layer := BatchNormalization; op_inputs := [conv2];
                   op_output := n |}]
          else []) ++
         {| op_layer := Conv3D dim 3 1 (Some acti) same; op_inputs := [x];
            op_output := conv2 |} :: pre /\
    (bn = false -> n = conv2) /\
    (res = false -> t = n).
Proof.
  unfold conv_block. intros Hrun.
  apply bind_inr in Hrun as (n1 & g1 & _ & Hrun).
  apply bind_inr in Hrun as (n2 & g2 & _ & Hrun).
  apply bind_inr in Hrun as (n3 & g3 & _ & Hrun).
  apply bind_inr in Hrun as (n4 & g4 & H4 & Hrun).
  apply bind_inr in Hrun as (n5 & g5 & H5 & Hrun).
  apply call_inr in H4 as (-> & _ & _).
  exists n3, n4, n5, g3.
  destruct bn, res.
  - apply call_inr in H5 as (-> & _ & _).
    apply call_inr in Hrun as (-> & _ & _).
    repeat split; discriminate.
  - apply call_inr in H5 as (-> & _ & _).
    injection Hrun as <- <-. repeat split; discriminate.
  - injection H5 as <- <-.
    apply call_inr in Hrun as (-> & _ & _).
    repeat split; discriminate.
  - injection H5 as <- <-. injection Hrun as <- <-.
    now repeat split.
Qed.

(** The dropouts of a block: the one with rate [do], when [do] is truthy. *)
Lemma conv_block_dropout_layers dim acti bn res do r :
  In (Dropout r) (conv_block_layers dim acti bn res do) <->
  truthy do = true /\ r = do.
Proof.
  unfold conv_block_layers.
  destruct bn, res, (truthy do); cbn [app In]; split;
    try (intros [Hin | Hin]; try discriminate Hin);
    repeat (destruct Hin as [Hin | Hin]; try discriminate Hin);
    try contradiction; try (injection Hin as ->; now split);
    try (intros [Ht ->]; try discriminate Ht; tauto).
Qed.

(** A completed [level_block]: it got past the test of [up] at every level
    that has one, and it added exactly the layers of [level_block_layers]. *)
Lemma level_block_rec_inr k : forall m dim inc acti do bn mp up res g t g',
  level_block_rec k m dim inc acti do bn mp up res g = inr (t, g') ->
  (k = O \/ up = true) /\
  exists new, g' = new ++ g /\
              map op_layer new = level_block_layers k dim inc acti do bn mp res.
Proof.
  induction k as [| k IH]; intros m dim inc acti do bn mp up res g t g' Hrun.
  - split; [now left |]. now apply conv_block_inr in Hrun.
  - cbn [level_block_rec] in Hrun.
    apply bind_inr in Hrun as (n & g1 & Henc & Hrun).
    apply bind_inr in Hrun as (m1 & g2 & Hdown & Hrun).
    apply bind_inr in Hrun as (dim' & g2' & Hdim & Hrun).
    apply lift_inr in Hdim as (Hdim & ->).
    apply next_dim_inr in Hdim.
    apply bind_inr in Hrun as (m2 & g3 & Hin & Hrun).
    apply bind_inr in Hrun as (m3 & g4 & Hup & Hrun).
    apply bind_inr in Hrun as (n' & g5 & Hcat & Hdec).
    destruct up; [| discriminate].
    split; [now right |].
    apply conv_block_inr in Henc as (enc & -> & Eenc).
    assert (g2 = [{| op_layer := if mp then MaxPooling3D (1, 2, 2)
                                 else Conv3D dim 3 2 None same;
                     op_inputs := [n]; op_output := m1 |}] ++ enc ++ g)
      as ->.
    { destruct mp; now apply call_inr in Hdown as (-> & _ & _). }
    apply IH in Hin as (_ & inner & -> & Einner).
    apply bind_inr in Hup as (u & gu & Hu & Hc).
    apply call_inr in Hu as (-> & _ & _).
    apply call_inr in Hc as (-> & _ & _).
    apply call_inr in Hcat as (-> & _ & _).
    apply conv_block_inr in Hdec as (dec & -> & Edec).
    eexists (dec ++ [_; _; _] ++ inner ++ [_] ++ enc). split.
    + now rewrite <- !app_assoc.
    + cbn [level_block_layers].
      rewrite !map_app, Edec, Einner, Eenc, Hdim. cbn [map op_layer].
      reflexivity.
Qed.

(** On a completed [level_block] the channel count of every level was
    computed. *)
Lemma level_block_rec_dims k : forall m dim inc acti do bn mp up res g t g',
  level_block_rec k m dim inc acti do bn mp up res g = inr (t, g') ->
  exists bottleneck, level_dim dim inc k = inr bottleneck.
Proof.
  induction k as [| k IH]; intros m dim inc acti do bn mp up res g t g' Hrun.
  - now exists dim.
  - cbn [level_block_rec] in Hrun.
    apply bind_inr in Hrun as (n & g1 & _ & Hrun).
    apply bind_inr in Hrun as (m1 & g2 & _ & Hrun).
    apply bind_inr in Hrun as (dim' & g2' & Hdim & Hrun).
    apply lift_inr in Hdim as (Hdim & ->).
    apply bind_inr in Hrun as (m2 & g3 & Hin & _).
    apply IH in Hin as (bottleneck & Hb).
    exists bottleneck. now rewrite level_dim_step, Hdim.
Qed.

(** A failed [level_block]: a layer call was refused, or a level that has
    to come back up found [up] false, or the channel count of a level could
    not be computed. *)
Lemma level_block_rec_inl k : forall m dim inc acti do bn mp up res g e,
  level_block_rec k m dim inc acti do bn mp up res g = inl e ->
  backend_refusal e \/
  (e = Exception no_upsampling_msg /\ up = false /\ k <> O) \/
  (exists j, (j <= k)%nat /\ level_dim dim inc j = inl e).
Proof.
  induction k as [| k IH]; intros m dim inc acti do bn mp up res g e Hrun.
  - left. now apply conv_block_inl in Hrun.
  - cbn [level_block_rec] in Hrun.
    apply bind_inl in Hrun as [Hrun | (n & g1 & _ & Hrun)];
      [left; now apply conv_block_inl in Hrun |].
    apply bind_inl in Hrun as [Hrun | (m1 & g2 & _ & Hrun)];
      [left; destruct mp; now apply call_inl in Hrun |].
    apply bind_inl in Hrun as [Hrun | (dim' & g2' & Hdim & Hrun)].
    { apply lift_inl in Hrun. right. right. exists 1%nat.
      split; [lia |]. now rewrite level_dim_step, Hrun. }
    apply lift_inr in Hdim as (Hdim & ->).
    apply bind_inl in Hrun as [Hrun | (m2 & g3 & _ & Hrun)].
    { apply IH in Hrun as [Hrun | [(-> & -> & _) | (j & Hj & Hrun)]];
        [now left | right; left; now repeat split |].
      right. right. exists (S j). split; [lia |].
      now rewrite level_dim_step, Hdim. }
    apply bind_inl in Hrun as [Hrun | (m3 & g4 & _ & Hrun)].
    { destruct up.
      - left.
        apply bind_inl in Hrun as [Hrun | (u & gu & _ & Hrun)];
          now apply call_inl in Hrun.
      - injection Hrun as <-. right. left. now repeat split. }
    apply bind_inl in Hrun as [Hrun | (n' & g5 & _ & Hrun)];
      [left; now apply call_inl in Hrun |].
    left. now apply conv_block_inl in Hrun.
Qed.

(** Running [UNet], step by step. *)
Lemma UNet_inr img_shape out_ch start_ch depth inc_rate activation dropout
    batchnorm maxpool upconv residual mdl :
  UNet img_shape out_ch start_ch depth inc_rate activation dropout
       batchnorm maxpool upconv residual = inr mdl ->
  exists i g1 o g2,
    call (Input img_shape) [] [] = inr (i, g1) /\
    level_block i start_ch depth inc_rate activation dropout
                batchnorm maxpool upconv residual g1 = inr (o, g2) /\
    call (Conv3D out_ch 1 1 (Some "sigmoid"%string) valid) [o] g2
      = inr (outputs mdl, layers mdl) /\
    inputs mdl = i.
Proof.
  unfold UNet.
  destruct (bind _ _ []) as [e | [[i o] g]] eqn:Hrun; [discriminate |].
  intros [= <-]. cbn [inputs outputs layers].
  apply bind_inr in Hrun as (i' & g1 & Hi & Hrun).
  apply bind_inr in Hrun as (o1 & g2 & Hl & Hrun).
  apply bind_inr in Hrun as (o2 & g3 & Hc & Hrun).
  injection Hrun as <- <- <-.
  now exists i', g1, o1, g2.
Qed.

Lemma UNet_inl img_shape out_ch start_ch depth inc_rate activation dropout
    batchnorm maxpool upconv residual e :
  UNet img_shape out_ch start_ch depth inc_rate activation dropout
       batchnorm maxpool upconv residual = inl e ->
  backend_refusal e \/
  (e = Exception no_upsampling_msg /\ upconv = false /\ 0 < depth) \/
  (exists j, (j <= Z.to_nat depth)%nat /\
             level_dim start_ch inc_rate j = inl e).
Proof.
  unfold UNet.
  destruct (bind _ _ []) as [e' | [[i o] g]] eqn:Hrun; [| discriminate].
  intros [= <-].
  apply bind_inl in Hrun as [Hrun | (i & g1 & _ & Hrun)];
    [left; now apply call_inl in Hrun |].
  apply bind_inl in Hrun as [Hrun | (o & g2 & _ & Hrun)].
  { apply level_block_rec_inl in Hrun as [Hrun | [(-> & -> & Hk) | Hrun]];
      [now left | | now right; right].
    right. left. repeat split. lia. }
  apply bind_inl in Hrun as [Hrun | (o2 & g3 & _ & Hrun)];
    [left; now apply call_inl in Hrun | discriminate].
Qed.

End Generic.

(** ** The recursion follows the Python text *)

Section Unfolding.
Context `{Backend}.

(** [level_block] satisfies the equation that the source reads as: the test
    [depth > 0], the recursive call with [int(inc * dim)] and [depth - 1]. *)
Lemma level_block_eq m dim depth inc acti do bn mp up res :
  level_block m dim depth inc acti do bn mp up res =
  if 0 <? depth then
    n <- conv_block m dim acti bn res 0 ;;
    m <- (if mp then call (MaxPooling3D (1, 2, 2)) [n]
          else call (Conv3D dim 3 2 None same) [n]) ;;
    dim' <- lift (int_mul inc dim) ;;
    m <- level_block m dim' (depth - 1) inc acti do bn mp up res ;;
    m <- (if up then
            m <- call (UpSampling3D (1, 2, 2)) [m] ;;
            call (Conv3D dim 2 1 (Some acti) same) [m]
          else raise (Exception no_upsampling_msg)) ;;
    n <- call Concatenate [n; m] ;;
    conv_block n dim acti bn res 0
  else conv_block m dim acti bn res do.
Proof.
  unfold level_block. destruct (0 <? depth) eqn:Hd.
  - apply Z.ltb_lt in Hd.
    replace (Z.to_nat depth) with (S (Z.to_nat (depth - 1))) by lia.
    reflexivity.
  - apply Z.ltb_ge in Hd.
    replace (Z.to_nat depth) with O by lia. reflexivity.
Qed.

End Unfolding.

(** ** Failure *)

Lemma int_mul_inl inc dim e :
  int_mul inc dim = inl e -> e = OverflowError \/ e = ValueError.
Proof.
  unfold int_mul, mul, float_of_int, int.
  destruct inc as [z | f]; [discriminate |].
  destruct (binary_normalize prec emax dim 0 false);
    try (intros [= <-]; now left);
    destruct (SFmul prec emax f _);
    intros [= <-]; auto.
Qed.

Lemma level_dim_inl start inc j e :
  level_dim start inc j = inl e -> e = OverflowError \/ e = ValueError.
Proof.
  induction j as [| j IH]; cbn [level_dim]; [discriminate |].
  destruct (level_dim start inc j) as [e' | dim].
  - intros [= <-]. now apply IH.
  - apply int_mul_inl.
Qed.

(** A count that was computed at some level was computed at every level
    above it. *)
Lemma level_dim_prefix start inc n bottleneck :
  level_dim start inc n = inr bottleneck ->
  forall j, (j <= n)%nat -> exists dim, level_dim start inc j = inr dim.
Proof.
  intros Hn j Hj. revert bottleneck Hn.
  induction Hj as [| n Hj IH]; intros bottleneck Hn;
    [now exists bottleneck |].
  cbn [level_dim] in Hn.
  destruct (level_dim start inc n) as [e | dim] eqn:Hdim; [discriminate |].
  now apply (IH dim).
Qed.

Section Failure.
Context `{Backend}.


(** C4, as the code has it: [UNet] checks neither the shape, nor the depth,
    nor the channel counts.  It fails only when the tensor library refuses
    a layer call, or with its own exception when [upconv = false] and
    [depth > 0], or when [int(inc_rate * dim)] raises at some level; a depth
    that is not positive is taken as 0; the arguments go to the layer
    constructors as they are: the first layer after the input is a
    convolution with [start_ch] filters on [img_shape], and when the
    library refuses it (or the input), that refusal is the result; with a
    library that refuses nothing, channel counts that can be computed and
    [upconv = true] (or no level to come back from), a model is returned
    whatever the shape, the depth and the channel counts are. *)
Theorem C4_no_validation img_shape out_ch start_ch depth inc_rate
    activation dropout batchnorm maxpool upconv residual :
  let run := UNet img_shape out_ch start_ch depth inc_rate activation dropout
                  batchnorm maxpool upconv residual in
  match run with
  | inl e =>
      backend_refusal e \/
      (e = Exception no_upsampling_msg /\ upconv = false /\ 0 < depth) \/
      ((e = OverflowError \/ e = ValueError) /\
       exists j, (j <= Z.to_nat depth)%nat /\
                 level_dim start_ch inc_rate j = inl e)
  | inr _ => True
  end /\
  run = UNet img_shape out_ch start_ch (Z.max 0 depth) inc_rate activation
             dropout batchnorm maxpool upconv residual /\
  match compute_output_shape (Input img_shape) [] with
  | None => run = inl (BackendError (Input img_shape) [])
  | Some s =>
      let first := Conv3D start_ch 3 1 (Some activation) same in
      match compute_output_shape first [s] with
      | None => run = inl (BackendError first [s])
      | Some _ => True
      end
  end /\
  ((forall l ins, compute_output_shape l ins <> None) ->
   upconv = true \/ depth <= 0 ->
   (exists bottleneck,
      level_dim start_ch inc_rate (Z.to_nat depth) = inr bottleneck) ->
   exists mdl, run = inr mdl).
Proof.
  intros run.
  assert (match run with
          | inl e =>
              backend_refusal e \/
              (e = Exception no_upsampling_msg /\ upconv = false /\
               0 < depth) \/
              ((e = OverflowError \/ e = ValueError) /\
               exists j, (j <= Z.to_nat depth)%nat /\
                         level_dim start_ch inc_rate j = inl e)
          | inr _ => True
          end) as Herr.
  { destruct run as [e | mdl] eqn:Hrun; [| trivial].
    apply UNet_inl in Hrun as [Hb | [Hexc | (j & Hj & Hdim)]];
      [now left | now right; left |].
    right. right. split; [now apply level_dim_inl in Hdim | now exists j]. }
  split; [exact Herr |]. split; [| split].
  - subst run. unfold UNet, level_block.
    now replace (Z.to_nat (Z.max 0 depth)) with (Z.to_nat depth) by lia.
  - subst run. unfold UNet, level_block.
    destruct (compute_output_shape (Input img_shape) []) as [s |] eqn:E0.
    + cbv zeta.
      destruct (compute_output_shape _ [s]) as [s1 |] eqn:E1; [trivial |].
      assert (call (Input img_shape) [] [] =
              inr ({| tid := 0; tshape := s |},
                   [{| op_layer := Input img_shape; op_inputs := [];
                       op_output := {| tid := 0; tshape := s |} |}])) as Hi
        by (unfold call, emit; cbn [map]; now rewrite E0).
      rewrite (bind_run _ _ _ _ _ Hi).
      assert (forall do g,
                conv_block {| tid := 0; tshape := s |} start_ch activation
                           batchnorm residual do g
                = inl (BackendError
                         (Conv3D start_ch 3 1 (Some activation) same) [s]))
        as Hcb.
      { intros do g. unfold conv_block, bind, call. cbn [map tshape].
        now rewrite E1. }
      unfold bind at 1.
      destruct (Z.to_nat depth); cbn [level_block_rec].
      * now rewrite Hcb.
      * unfold bind at 1. now rewrite Hcb.
    + unfold bind, call. cbn [map]. now rewrite E0.
  - intros Hall Hup (bottleneck & Hdims).
    destruct run as [e | mdl]; [exfalso | now exists mdl].
    destruct Herr as [(l & ins & _ & Hnone) | [(_ & -> & Hd) | (_ & j & Hj & Hdim)]].
    + now apply (Hall l ins).
    + destruct Hup; [discriminate | lia].
    + destruct (level_dim_prefix _ _ _ _ Hdims j Hj) as (dim & Hok).
      rewrite Hok in Hdim. discriminate.
Qed.

End Failure.



(** On a well-formed volume the error is the program's own. *)
Example UNet_upconv_false_run :
  UNet [8; 64; 64; 1] 1 64 4 (py_float 2 1) "relu" (1 # 2)
       false true false false
  = inl (Exception "Unet in 3D does not work without upsampling").
Proof. vm_compute. reflexivity. Qed.

(** With a growth rate that makes the product overflow, the error of
    [int(inc * dim)] comes before the designated one. *)
Example UNet_upconv_false_overflow_run :
  UNet [8; 64; 64; 1] 1 64 4 (PyFloat (S754_infinity false)) "relu" (1 # 2)
       false true false false
  = inl OverflowError.
Proof. vm_compute. reflexivity. Qed.

(** C4 as stated does not hold: a growth rate that is not finite is not
    handed to the library; [int(inc * dim)] raises inside [level_block], and
    the library never refused anything. *)
Lemma C4_counterexample_failure_inside :
  UNet [8; 64; 64; 1] 1 64 1 (PyFloat (S754_infinity false)) "relu" (1 # 2)
       false true true false
  = inl OverflowError /\
  ~ backend_refusal OverflowError.
Proof.
  split; [vm_compute; reflexivity |].
  intros (l & ins & Hl & _). discriminate Hl.
Qed.

Lemma C4_no_validation_witness :
  exists mdl,
    @UNet accept_all [] 0 0 (-3) (py_float 2 1) "relu" (1 # 2)
          false true true false
    = inr mdl.
Proof.
  apply (@C4_no_validation accept_all [] 0 0 (-3) (py_float 2 1) "relu"
           (1 # 2) false true true false).
  - intros l ins. discriminate.
  - left. reflexivity.
  - exists 0. reflexivity.
Defined.

(** A negative depth and a zero channel count are taken as they come. *)
Example UNet_negative_depth_run :
  exists mdl,
    UNet [8; 64; 64; 1] 1 0 (-3) (py_float 2 1) "relu" (1 # 2)
         false true true false
    = inr mdl /\
    map op_layer (layers mdl) =
      [Conv3D 1 1 1 (Some "sigmoid"%string) valid;
       Conv3D 0 3 1 (Some "relu"%string) same;
       Dropout (1 # 2);
       Conv3D 0 3 1 (Some "relu"%string) same;
       Input [8; 64; 64; 1]].
Proof. eexists. split; vm_compute; reflexivity. Qed.

(** ** Layers of the graph: channels, dropout, the final convolution *)

Section LayerLists.

Lemma block_filters_app a b :
  block_filters (a ++ b) = block_filters a ++ block_filters b.
Proof. apply flat_map_app. Qed.

Lemma marks_app a b : marks (a ++ b) = marks a ++ marks b.
Proof. apply flat_map_app. Qed.

Lemma block_filters_conv_block dim acti bn res do :
  block_filters (conv_block_layers dim acti bn res do) = [dim; dim].
Proof.
  unfold conv_block_layers. now destruct bn, res, (truthy do).
Qed.

Lemma marks_conv_block dim acti bn res do :
  marks (conv_block_layers dim acti bn res do) =
  [BlockConv] ++ (if truthy do then [Drop do] else []) ++ [BlockConv].
Proof.
  unfold conv_block_layers. now destruct bn, res, (truthy do).
Qed.

Lemma pointwise_conv_block dim acti bn res do :
  filter is_pointwise_conv (conv_block_layers dim acti bn res do) = [].
Proof.
  unfold conv_block_layers. now destruct bn, res, (truthy do).
Qed.

Lemma level_order_le d : Forall (fun x => (x <= d)%nat) (level_order d).
Proof.
  induction d as [| d IH]; cbn [level_order].
  - now repeat constructor.
  - repeat (apply Forall_cons; [lia |]).
    apply Forall_app. split.
    + eapply Forall_impl; [| exact IH]. cbn. lia.
    + now repeat constructor.
Qed.

(** A count that was computed is [next_dim] applied as many times. *)
Lemma level_dim_iter start inc j : forall dim,
  level_dim start inc j = inr dim ->
  dim = Nat.iter j (next_dim inc) start.
Proof.
  induction j as [| j IH]; intros dim; cbn [level_dim].
  - now intros [= ->].
  - destruct (level_dim start inc j) as [e | d]; [discriminate |].
    intros Hdim. cbn [Nat.iter nat_rect]. fold (Nat.iter j (next_dim inc) start).
    rewrite <- (IH d eq_refl). symmetry. now apply next_dim_inr.
Qed.

(** With products that are exact for the factor [r], the count [j] levels
    down is [start * r ^ j]. *)
Lemma level_dim_exact start inc r n :
  (forall j, (j < n)%nat ->
     int_mul inc (start * r ^ Z.of_nat j) = inr (r * (start * r ^ Z.of_nat j))) ->
  forall j, (j <= n)%nat -> level_dim start inc j = inr (start * r ^ Z.of_nat j).
Proof.
  intros Hexact. induction j as [| j IH]; intros Hj.
  - cbn. f_equal. lia.
  - cbn [level_dim]. rewrite IH by lia. rewrite Hexact by lia.
    f_equal. rewrite Nat2Z.inj_succ, Z.pow_succ_r by lia. ring.
Qed.

Lemma Forall2_map_in {A B} (P : A -> B -> Prop) (f : B -> A) l :
  (forall x, In x l -> P (f x) x) -> Forall2 P (map f l) l.
Proof.
  induction l as [| x l IH]; intros Hall; cbn [map]; constructor.
  - apply Hall. now left.
  - apply IH. intros y Hy. apply Hall. now right.
Qed.

Lemma Forall2_eq_map {A B} (f : B -> A) fs l :
  Forall2 (fun a b => a = f b) fs l -> fs = map f l.
Proof. induction 1 as [| a b fs l -> _ IH]; cbn [map]; now f_equal. Qed.

(** The blocks of the level that is [k - d] steps down are built with the
    count that [k - d] steps produce. *)
Lemma block_filters_level_block k : forall dim inc acti do bn mp res,
  block_filters (level_block_layers k dim inc acti do bn mp res) =
  map (fun d => Nat.iter (k - d) (next_dim inc) dim) (level_order k).
Proof.
  induction k as [| k IH]; intros dim inc acti do bn mp res.
  - cbn [level_block_layers level_order map].
    now rewrite block_filters_conv_block.
  - cbn [level_block_layers level_order].
    rewrite !block_filters_app, !block_filters_conv_block, IH.
    replace (block_filters [Concatenate; Conv3D dim 2 1 (Some acti) same;
                            UpSampling3D (1, 2, 2)]) with (@nil Z)
      by reflexivity.
    replace (block_filters [if mp then MaxPooling3D (1, 2, 2)
                            else Conv3D dim 3 2 None same]) with (@nil Z)
      by (now destruct mp).
    rewrite !map_app. cbn [map app].
    rewrite Nat.sub_diag. cbn [Nat.iter nat_rect].
    do 2 f_equal. f_equal.
    apply map_ext_in. intros d Hd.
    pose proof (level_order_le k) as Hle.
    rewrite Forall_forall in Hle. specialize (Hle d Hd).
    replace (S k - d)%nat with (S (k - d)) by lia.
    symmetry. apply Nat.iter_succ_r.
Qed.

Lemma repeat_snoc2 {A} (x : A) n :
  repeat x n ++ [x; x] = x :: x :: repeat x n.
Proof.
  change [x; x] with (repeat x 2).
  rewrite <- repeat_app. now replace (n + 2)%nat with (S (S n)) by lia.
Qed.

(** Block convolutions and dropouts of a completed [level_block]: the one
    possible dropout sits between the two convolutions of the innermost
    block, with the [2 * k] convolutions of the encoder blocks before the
    innermost block and the [2 * k] of the decoder blocks after it. *)
Lemma marks_level_block k : forall dim inc acti do bn mp res,
  marks (level_block_layers k dim inc acti do bn mp res) =
  repeat BlockConv (2 * k + 1) ++
  (if truthy do then [Drop do] else []) ++
  repeat BlockConv (2 * k + 1).
Proof.
  induction k as [| k IH]; intros dim inc acti do bn mp res.
  - cbn [level_block_layers]. now rewrite marks_conv_block.
  - cbn [level_block_layers].
    rewrite !marks_app, !marks_conv_block, IH.
    replace (marks [Concatenate; Conv3D dim 2 1 (Some acti) same;
                    UpSampling3D (1, 2, 2)]) with (@nil mark) by reflexivity.
    replace (marks [if mp then MaxPooling3D (1, 2, 2)
                    else Conv3D dim 3 2 None same]) with (@nil mark)
      by (now destruct mp).
    replace (2 * S k + 1)%nat with (S (S (2 * k + 1))) by lia.
    change (truthy 0) with false. cbn [app repeat].
    do 2 f_equal. rewrite <- !app_assoc. do 2 f_equal.
    apply repeat_snoc2.
Qed.

Lemma pointwise_level_block k : forall dim inc acti do bn mp res,
  filter is_pointwise_conv (level_block_layers k dim inc acti do bn mp res)
  = [].
Proof.
  induction k as [| k IH]; intros dim inc acti do bn mp res;
    cbn [level_block_layers].
  - apply pointwise_conv_block.
  - rewrite !filter_app, !pointwise_conv_block, IH. now destruct mp.
Qed.

Lemma count_dropout_marks ls :
  length (filter is_dropout ls) = length (filter is_drop_mark (marks ls)).
Proof.
  induction ls as [| l ls IH]; [reflexivity |].
  change (marks (l :: ls)) with (mark_of l ++ marks ls).
  rewrite filter_app, length_app, <- IH.
  destruct l; cbn; try reflexivity.
  now destruct ((kernel_size =? 3) && (strides =? 1)).
Qed.

Lemma filter_drop_repeat n : filter is_drop_mark (repeat BlockConv n) = [].
Proof. induction n; [reflexivity | exact IHn]. Qed.

End LayerLists.

Section Layers.
Context `{Backend}.

(** The layers of a model that [UNet] returns, newest first. *)
Lemma UNet_layers img_shape out_ch start_ch depth inc_rate activation dropout
    batchnorm maxpool upconv residual mdl :
  UNet img_shape out_ch start_ch depth inc_rate activation dropout
       batchnorm maxpool upconv residual = inr mdl ->
  map op_layer (layers mdl) =
  Conv3D out_ch 1 1 (Some "sigmoid"%string) valid ::
  level_block_layers (Z.to_nat depth) start_ch inc_rate activation dropout
                     batchnorm maxpool residual ++
  [Input img_shape].
Proof.
  intros Hrun.
  apply UNet_inr in Hrun as (i & g1 & o & g2 & Hi & Hl & Hc & _).
  apply call_inr in Hi as (-> & _ & _).
  apply level_block_rec_inr in Hl as (_ & new & -> & Enew).
  apply call_inr in Hc as (-> & _ & _).
  cbn [map op_layer]. now rewrite map_app, Enew.
Qed.

Lemma in_marks_drop ls r : In (Drop r) (marks ls) <-> In (Dropout r) ls.
Proof.
  induction ls as [| l ls IH]; [reflexivity |].
  change (marks (l :: ls)) with (mark_of l ++ marks ls).
  rewrite in_app_iff, IH. cbn [In].
  destruct l; cbn [mark_of In];
    try (split; [intros [[] | Hin]; now right
                | intros [Hl | Hin]; [discriminate | now right]]).
  - destruct ((kernel_size =? 3) && (strides =? 1)); cbn [In];
      (split; [intros [Hl | Hin]; [| now right]
              | intros [Hl | Hin]; [discriminate | now right]]).
    + destruct Hl as [Hl | []]. discriminate.
    + destruct Hl.
  - split.
    + intros [[Hl | []] | Hin]; [left | now right]. now injection Hl as ->.
    + intros [Hl | Hin]; [left; left | now right]. now injection Hl as ->.
Qed.

(** The dropout layers of a model: the one with rate [dropout], present
    exactly when [dropout] is not zero. *)
Lemma UNet_dropout_layers img_shape out_ch start_ch depth inc_rate activation
    dropout batchnorm maxpool upconv residual mdl r :
  UNet img_shape out_ch start_ch depth inc_rate activation dropout
       batchnorm maxpool upconv residual = inr mdl ->
  In (Dropout r) (map op_layer (layers mdl)) <->
  truthy dropout = true /\ r = dropout.
Proof.
  intros Hrun.
  rewrite (UNet_layers _ _ _ _ _ _ _ _ _ _ _ _ Hrun), <- in_marks_drop.
  change (marks (?l :: ?ls)) with (mark_of l ++ marks ls).
  rewrite marks_app, marks_level_block.
  cbn [mark_of marks flat_map Z.eqb andb app Pos.eqb].
  rewrite !app_nil_r, !in_app_iff. split.
  - intros [Hin | [Hin | Hin]].
    + apply repeat_spec in Hin. discriminate.
    + destruct (truthy dropout); [| destruct Hin].
      destruct Hin as [Hin | []]. now injection Hin as ->.
    + apply repeat_spec in Hin. discriminate.
  - intros [-> ->]. right. left. now left.
Qed.

(** C3, as the code has it: the two convolutions of the blocks of level [d]
    have the count that [start_ch] becomes when it is taken [depth - d]
    times through [int(inc_rate * dim)], rounding and truncation included.
    Whenever these products are exact for a factor [r], the count is
    [start_ch * r ^ (depth - d)], and the innermost level [d = 0] has
    [start_ch * r ^ depth]; they are always exact when [inc_rate] is the
    Python [int] [r]. *)
Theorem C3_channels_per_level img_shape out_ch start_ch depth inc_rate
    activation dropout batchnorm maxpool upconv residual mdl :
  0 <= depth ->
  UNet img_shape out_ch start_ch depth inc_rate activation dropout
       batchnorm maxpool upconv residual = inr mdl ->
  Forall2 (fun f d =>
             level_dim start_ch inc_rate (Z.to_nat (depth - Z.of_nat d))
             = inr f)
          (block_filters (map op_layer (layers mdl)))
          (level_order (Z.to_nat depth)) /\
  (forall r : Z,
     (forall j, (j < Z.to_nat depth)%nat ->
        int_mul inc_rate (start_ch * r ^ Z.of_nat j)
        = inr (r * (start_ch * r ^ Z.of_nat j))) ->
     block_filters (map op_layer (layers mdl)) =
       map (fun d => start_ch * r ^ (depth - Z.of_nat d))
           (level_order (Z.to_nat depth)) /\
     In (start_ch * r ^ depth) (block_filters (map op_layer (layers mdl)))) /\
  (forall r : Z,
     inc_rate = PyInt r ->
     block_filters (map op_layer (layers mdl)) =
       map (fun d => start_ch * r ^ (depth - Z.of_nat d))
           (level_order (Z.to_nat depth))).
Proof.
  intros Hd Hrun.
  assert (block_filters (map op_layer (layers mdl)) =
          map (fun d => Nat.iter (Z.to_nat depth - d) (next_dim inc_rate)
                                 start_ch)
              (level_order (Z.to_nat depth))) as Hmap.
  { rewrite (UNet_layers _ _ _ _ _ _ _ _ _ _ _ _ Hrun).
    change (block_filters (?l :: ?ls)) with (block_filter l ++ block_filters ls).
    rewrite block_filters_app, block_filters_level_block.
    cbn [block_filter block_filters flat_map Z.eqb andb app Pos.eqb].
    now rewrite app_nil_r. }
  apply UNet_inr in Hrun as (i & g1 & o & g2 & _ & Hl & _ & _).
  apply level_block_rec_dims in Hl as (bottleneck & Hb).
  pose proof (level_order_le (Z.to_nat depth)) as Hle.
  rewrite Forall_forall in Hle.
  assert (Forall2 (fun f d =>
                     level_dim start_ch inc_rate
                       (Z.to_nat (depth - Z.of_nat d)) = inr f)
                  (block_filters (map op_layer (layers mdl)))
                  (level_order (Z.to_nat depth))) as Hgen.
  { rewrite Hmap. apply Forall2_map_in. intros d Hin.
    specialize (Hle d Hin).
    replace (Z.to_nat (depth - Z.of_nat d)) with (Z.to_nat depth - d)%nat
      by lia.
    destruct (level_dim_prefix _ _ _ _ Hb (Z.to_nat depth - d)%nat ltac:(lia))
      as (dim & Hdim).
    now rewrite Hdim, (level_dim_iter _ _ _ _ Hdim). }
  assert (forall r : Z,
            (forall j, (j < Z.to_nat depth)%nat ->
               int_mul inc_rate (start_ch * r ^ Z.of_nat j)
               = inr (r * (start_ch * r ^ Z.of_nat j))) ->
            block_filters (map op_layer (layers mdl)) =
            map (fun d => start_ch * r ^ (depth - Z.of_nat d))
                (level_order (Z.to_nat depth))) as Hexact.
  { intros r Hr. rewrite Hmap. apply map_ext_in. intros d Hin.
    specialize (Hle d Hin).
    pose proof (level_dim_exact start_ch inc_rate r (Z.to_nat depth) Hr
                  (Z.to_nat depth - d)%nat ltac:(lia)) as Hdim.
    rewrite <- (level_dim_iter _ _ _ _ Hdim). do 2 f_equal. lia. }
  split; [exact Hgen |]. split.
  - intros r Hr. split; [now apply Hexact |].
    rewrite (Hexact r Hr). apply in_map_iff. exists O. split.
    + do 2 f_equal. lia.
    + clear. induction (Z.to_nat depth) as [| n IH]; cbn [level_order].
      * now left.
      * cbn [app]. do 2 right. apply in_or_app. now left.
  - intros r ->. apply Hexact. reflexivity.
Qed.

(** C6: among the block convolutions of the graph, in creation order, at
    most one dropout occurs: none when [dropout] is zero, else one, with
    rate [dropout], between the first and the second convolution of the
    innermost block; the [2 * depth] convolutions of the encoder blocks come
    before that block, the [2 * depth] of the decoder blocks after it, and
    none of these blocks has a dropout. *)
Theorem C6_dropout_only_in_bottleneck img_shape out_ch start_ch depth
    inc_rate activation dropout batchnorm maxpool upconv residual mdl :
  UNet img_shape out_ch start_ch depth inc_rate activation dropout
       batchnorm maxpool upconv residual = inr mdl ->
  marks (map op_layer (layers mdl)) =
    repeat BlockConv (2 * Z.to_nat depth + 1) ++
    (if truthy dropout then [Drop dropout] else []) ++
    repeat BlockConv (2 * Z.to_nat depth + 1) /\
  count_layers is_dropout (layers mdl) =
    (if truthy dropout then 1%nat else 0%nat) /\
  (count_layers is_dropout (layers mdl) <= 1)%nat.
Proof.
  intros Hrun.
  assert (marks (map op_layer (layers mdl)) =
          repeat BlockConv (2 * Z.to_nat depth + 1) ++
          (if truthy dropout then [Drop dropout] else []) ++
          repeat BlockConv (2 * Z.to_nat depth + 1)) as Hm.
  { rewrite (UNet_layers _ _ _ _ _ _ _ _ _ _ _ _ Hrun).
    change (marks (?l :: ?ls)) with (mark_of l ++ marks ls).
    rewrite marks_app, marks_level_block.
    cbn [mark_of marks flat_map Z.eqb andb app Pos.eqb].
    now rewrite !app_nil_r. }
  assert (count_layers is_dropout (layers mdl) =
          (if truthy dropout then 1%nat else 0%nat)) as Hc.
  { unfold count_layers. rewrite count_dropout_marks, Hm.
    rewrite !filter_app, !filter_drop_repeat.
    now destruct (truthy dropout). }
  repeat split; [exact Hm | exact Hc |].
  rewrite Hc. destruct (truthy dropout); lia.
Qed.

(** C7: the newest operation of the model is a convolution with [out_ch]
    filters, kernel size 1 and the sigmoid activation, whatever [activation]
    is; its input is the tensor that the level recursion returned, its
    output is the output of the model, and it is the only convolution of
    kernel size 1 in the graph. *)
Theorem C7_final_sigmoid_convolution img_shape out_ch start_ch depth inc_rate
    activation dropout batchnorm maxpool upconv residual mdl :
  UNet img_shape out_ch start_ch depth inc_rate activation dropout
       batchnorm maxpool upconv residual = inr mdl ->
  exists i g1 o g2,
    call (Input img_shape) [] [] = inr (i, g1) /\
    level_block i start_ch depth inc_rate activation dropout
                batchnorm maxpool upconv residual g1 = inr (o, g2) /\
    layers mdl =
      {| op_layer := Conv3D out_ch 1 1 (Some "sigmoid"%string) valid;
         op_inputs := [o];
         op_output := outputs mdl |} :: g2 /\
    count_layers is_pointwise_conv (layers mdl) = 1%nat.
Proof.
  intros Hrun.
  pose proof (UNet_layers _ _ _ _ _ _ _ _ _ _ _ _ Hrun) as Hls.
  apply UNet_inr in Hrun as (i & g1 & o & g2 & Hi & Hl & Hc & _).
  exists i, g1, o, g2. repeat split; try assumption.
  - now apply call_inr in Hc as (-> & _ & _).
  - unfold count_layers. rewrite Hls.
    cbn [filter is_pointwise_conv Z.eqb Pos.eqb].
    rewrite filter_app, pointwise_level_block. reflexivity.
Qed.

End Layers.

Lemma C3_channels_per_level_witness :
  0 <= 4 /\
  exists mdl,
    UNet [8; 64; 64; 1] 1 64 4 (py_float 2 1) "relu" (1 # 2)
         false true true false
    = inr mdl /\
    block_filters (map op_layer (layers mdl)) =
      map (fun d => 64 * 2 ^ (4 - Z.of_nat d)) (level_order 4) /\
    In 1024 (block_filters (map op_layer (layers mdl))).
Proof.
  split; [lia |].
  destruct (UNet [8; 64; 64; 1] 1 64 4 (py_float 2 1) "relu" (1 # 2)
                 false true true false)
    as [e | mdl] eqn:Hrun; [vm_compute in Hrun; discriminate |].
  exists mdl. split; [reflexivity |].
  assert (0 <= 4) as Hd by lia.
  assert (forall j, (j < Z.to_nat 4)%nat ->
            int_mul (py_float 2 1) (64 * 2 ^ Z.of_nat j)
            = inr (2 * (64 * 2 ^ Z.of_nat j))) as Hexact.
  { intros j Hj.
    destruct j as [| [| [| [| j]]]]; [vm_compute; reflexivity .. |].
    exfalso. revert Hj. vm_compute. lia. }
  exact (proj1 (proj2 (C3_channels_per_level [8; 64; 64; 1] 1 64 4
                         (py_float 2 1) "relu" (1 # 2) false true true false
                         mdl Hd Hrun)) 2 Hexact).
Defined.

(** The products are rounded as the interpreter rounds them. *)
Example int_mul_rounds :
  int_mul (py_float 115 100) 100 = inr 114 /\
  int_mul (py_float 12 10) 10 = inr 12 /\
  int_mul (py_float 115 100) 20 = inr 23 /\
  int_mul (py_float 1 1) (2 ^ 53 + 1) = inr (2 ^ 53) /\
  int_mul (PyFloat S754_nan) 64 = inl ValueError /\
  int_mul (py_float 2 1) (2 ^ 1030) = inl OverflowError.
Proof. repeat split; vm_compute; reflexivity. Qed.

(** C3 as stated does not hold for a growth rate that is not an integer:
    with [start_ch = 3] and [inc_rate = 3/2] the innermost blocks of a
    network of depth 1 get [int(4.5) = 4] channels, not [3 * (3/2)^1]. *)
Lemma C3_counterexample_fractional_rate :
  exists mdl,
    UNet [8; 64; 64; 1] 1 3 1 (py_float 3 2) "relu" (1 # 2) false true true false
    = inr mdl /\
    block_filters (map op_layer (layers mdl)) = [3; 3; 4; 4; 3; 3] /\
    level_order 1 = [1%nat; 1%nat; O; O; 1%nat; 1%nat] /\
    ~ Forall2 (fun (f : Z) (d : nat) =>
                 inject_Z f == inject_Z 3 * (3 # 2) ^ (1 - Z.of_nat d))
              (block_filters (map op_layer (layers mdl))) (level_order 1).
Proof.
  eexists. split; [vm_compute; reflexivity |].
  cbn [layers]. split; [vm_compute; reflexivity |].
  split; [reflexivity |].
  vm_compute. intros Hall.
  inversion Hall as [| ? ? ? ? _ Hall1]; subst.
  inversion Hall1 as [| ? ? ? ? _ Hall2]; subst.
  inversion Hall2 as [| ? ? ? ? Hbad _]; subst.
  discriminate Hbad.
Qed.

(** ** From one library to another *)

Section Transfer.
Context (B0 B : Backend).

Lemma accepts_app (L : Backend) a b :
  accepts L (a ++ b) = accepts L a && accepts L b.
Proof. apply forallb_app. Qed.

Lemma follows_call l ins :
  follows B0 B (@call B0 l ins) (@call B l ins).
Proof.
  intros g t g' Hrun. apply call_inr in Hrun as (-> & Ht & Hs).
  eexists [_]. split; [reflexivity |]. split.
  - cbn [accepts forallb op_layer op_inputs op_output].
    now rewrite Hs, dims_eqb_refl.
  - cbn [accepts forallb op_layer op_inputs op_output].
    unfold call.
    destruct (@compute_output_shape B l (map tshape ins)) as [s |];
      [| discriminate].
    rewrite andb_true_r. intros Hsame. apply dims_eqb_eq in Hsame.
    unfold emit. destruct t as [i sh]. cbn [tid tshape] in *.
    now subst.
Qed.

Lemma follows_same {A} (c : M A) :
  (forall g a g', c g = inr (a, g') -> g' = g) -> follows B0 B c c.
Proof.
  intros Hsame g a g' Hrun. exists [].
  pose proof (Hsame _ _ _ Hrun) as Hg. subst g'.
  split; [reflexivity |]. split; [reflexivity |]. intros _. exact Hrun.
Qed.

Lemma follows_ret {A} (a : A) : follows B0 B (ret a) (ret a).
Proof. apply follows_same. now intros g x g' [= _ <-]. Qed.

Lemma follows_raise {A} e : follows B0 B (@raise A e) (raise e).
Proof. apply follows_same. discriminate. Qed.

Lemma follows_lift {A} (r : error + A) : follows B0 B (lift r) (lift r).
Proof.
  apply follows_same. intros g a g' Hrun. now apply lift_inr in Hrun.
Qed.

Lemma follows_bind {X Y} (c cB : M X) (f fB : X -> M Y) :
  follows B0 B c cB ->
  (forall x, follows B0 B (f x) (fB x)) ->
  follows B0 B (bind c f) (bind cB fB).
Proof.
  intros Hc Hf g y g' Hrun.
  apply bind_inr in Hrun as (x & g1 & Hc1 & Hf1).
  destruct (Hc _ _ _ Hc1) as (new1 & -> & Hok1 & Hrun1).
  destruct (Hf x _ _ _ Hf1) as (new2 & -> & Hok2 & Hrun2).
  exists (new2 ++ new1). split; [now rewrite app_assoc |].
  rewrite !accepts_app, Hok1, Hok2. split; [reflexivity |].
  intros Hboth. apply andb_true_iff in Hboth as [H2 H1].
  rewrite (bind_run _ _ _ _ _ (Hrun1 H1)). now apply Hrun2.
Qed.

Lemma follows_conv_block m dim acti bn res do :
  follows B0 B (@conv_block B0 m dim acti bn res do)
               (@conv_block B m dim acti bn res do).
Proof.
  unfold conv_block.
  apply follows_bind; [apply follows_call | intros n1].
  apply follows_bind;
    [destruct bn; [apply follows_call | apply follows_ret] | intros n2].
  apply follows_bind;
    [destruct (truthy do); [apply follows_call | apply follows_ret]
    | intros n3].
  apply follows_bind; [apply follows_call | intros n4].
  apply follows_bind;
    [destruct bn; [apply follows_call | apply follows_ret] | intros n5].
  destruct res; [apply follows_call | apply follows_ret].
Qed.

Lemma follows_level_block k : forall m dim inc acti do bn mp up res,
  follows B0 B (@level_block_rec B0 k m dim inc acti do bn mp up res)
               (@level_block_rec B k m dim inc acti do bn mp up res).
Proof.
  induction k as [| k IH]; intros m dim inc acti do bn mp up res;
    cbn [level_block_rec].
  - apply follows_conv_block.
  - apply follows_bind; [apply follows_conv_block | intros n].
    apply follows_bind; [destruct mp; apply follows_call | intros m1].
    apply follows_bind; [apply follows_lift | intros dim'].
    apply follows_bind; [apply IH | intros m2].
    apply follows_bind.
    { destruct up; [| apply follows_raise].
      apply follows_bind; [apply follows_call | intros u].
      apply follows_call. }
    intros m3.
    apply follows_bind; [apply follows_call | intros n'].
    apply follows_conv_block.
Qed.

(** A model that [UNet] returns with the library [B0] records shapes that
    [B0] gives, and is what [UNet] returns with any library that accepts its
    operations. *)
Lemma UNet_follows img_shape out_ch start_ch depth inc_rate activation dropout
    batchnorm maxpool upconv residual mdl :
  @UNet B0 img_shape out_ch start_ch depth inc_rate activation dropout
        batchnorm maxpool upconv residual = inr mdl ->
  accepts B0 (layers mdl) = true /\
  (accepts B (layers mdl) = true ->
   @UNet B img_shape out_ch start_ch depth inc_rate activation dropout
         batchnorm maxpool upconv residual = inr mdl).
Proof.
  unfold UNet.
  destruct (bind _ _ []) as [e | [[i o] g]] eqn:Hrun; [discriminate |].
  intros [= <-]. cbn [layers].
  assert (follows B0 B
            (i <- @call B0 (Input img_shape) [] ;;
             o <- @level_block B0 i start_ch depth inc_rate activation dropout
                    batchnorm maxpool upconv residual ;;
             o <- @call B0 (Conv3D out_ch 1 1 (Some "sigmoid"%string) valid)
                    [o] ;;
             ret (i, o))
            (i <- @call B (Input img_shape) [] ;;
             o <- @level_block B i start_ch depth inc_rate activation dropout
                    batchnorm maxpool upconv residual ;;
             o <- @call B (Conv3D out_ch 1 1 (Some "sigmoid"%string) valid)
                    [o] ;;
             ret (i, o))) as Hfollows.
  { apply follows_bind; [apply follows_call | intros i'].
    apply follows_bind; [apply follows_level_block | intros o1].
    apply follows_bind; [apply follows_call | intros o2].
    apply follows_ret. }
  destruct (Hfollows _ _ _ Hrun) as (new & -> & Hok & Hsame).
  rewrite app_nil_r in *. split; [exact Hok |].
  intros HB. now rewrite (Hsame HB).
Qed.

End Transfer.

(** ** Shapes under the Keras rules *)

Lemma conv_same_stride_1 x k : conv_output_length x k same 1 = x.
Proof.
  unfold conv_output_length. rewrite Z.div_1_r. lia.
Qed.

Lemma conv_valid_unit x : conv_output_length x 1 valid 1 = x.
Proof.
  unfold conv_output_length. rewrite Z.div_1_r. lia.
Qed.

Lemma pool_2_even x : conv_output_length (2 * x) 2 valid 2 = x.
Proof.
  unfold conv_output_length.
  replace (2 * x - 2 + 1 + 2 - 1) with (x * 2) by lia.
  now apply Z.div_mul.
Qed.

Lemma conv_same_stride_2 x : conv_output_length x 3 same 2 = (x + 1) / 2.
Proof.
  unfold conv_output_length. f_equal. lia.
Qed.

Lemma call_same_conv n d h w c f k a g :
  tshape n = [d; h; w; c] ->
  call (Conv3D f k 1 a same) [n] g = emit (Conv3D f k 1 a same) [n] [d; h; w; f] g.
Proof.
  intros Hn. unfold call. cbn [map compute_output_shape keras].
  rewrite Hn. cbn [keras_output_shape].
  now rewrite !conv_same_stride_1.
Qed.

Lemma call_pointwise_conv n d h w c f a g :
  tshape n = [d; h; w; c] ->
  call (Conv3D f 1 1 a valid) [n] g
  = emit (Conv3D f 1 1 a valid) [n] [d; h; w; f] g.
Proof.
  intros Hn. unfold call. cbn [map compute_output_shape keras].
  rewrite Hn. cbn [keras_output_shape].
  now rewrite !conv_valid_unit.
Qed.

Lemma call_strided_conv n d h w c f a g :
  tshape n = [d; h; w; c] ->
  call (Conv3D f 3 2 a same) [n] g
  = emit (Conv3D f 3 2 a same) [n] [(d + 1) / 2; (h + 1) / 2; (w + 1) / 2; f] g.
Proof.
  intros Hn. unfold call. cbn [map compute_output_shape keras].
  rewrite Hn. cbn [keras_output_shape].
  now rewrite !conv_same_stride_2.
Qed.

Lemma call_batchnorm n g :
  call BatchNormalization [n] g = emit BatchNormalization [n] (tshape n) g.
Proof. reflexivity. Qed.

Lemma call_dropout r n g :
  call (Dropout r) [n] g = emit (Dropout r) [n] (tshape n) g.
Proof. reflexivity. Qed.

Lemma call_max_pooling n d h w c g :
  tshape n = [d; 2 * h; 2 * w; c] ->
  call (MaxPooling3D (1, 2, 2)) [n] g
  = emit (MaxPooling3D (1, 2, 2)) [n] [d; h; w; c] g.
Proof.
  intros Hn. unfold call. cbn [map compute_output_shape keras].
  rewrite Hn. cbn [keras_output_shape].
  now rewrite conv_valid_unit, !pool_2_even.
Qed.

Lemma call_up_sampling n d h w c g :
  tshape n = [d; h; w; c] ->
  call (UpSampling3D (1, 2, 2)) [n] g
  = emit (UpSampling3D (1, 2, 2)) [n] [d; 2 * h; 2 * w; c] g.
Proof.
  intros Hn. unfold call. cbn [map compute_output_shape keras].
  rewrite Hn. cbn [keras_output_shape].
  now rewrite Z.mul_1_l.
Qed.

Lemma call_concatenate a b d h w c1 c2 g :
  tshape a = [d; h; w; c1] ->
  tshape b = [d; h; w; c2] ->
  call Concatenate [a; b] g = emit Concatenate [a; b] [d; h; w; c1 + c2] g.
Proof.
  intros Ha Hb. unfold call. cbn [map compute_output_shape keras].
  rewrite Ha, Hb.
  cbn [keras_output_shape concat_shapes removelast last length Nat.eqb negb].
  now rewrite dims_eqb_refl.
Qed.

Ltac keras_step :=
  first [ rewrite call_batchnorm
        | rewrite call_dropout
        | erewrite call_same_conv by reflexivity
        | erewrite call_concatenate by (eassumption || reflexivity) ];
  cbv beta iota zeta delta [emit ret]; cbn [tshape].

Lemma conv_block_keras_eq m d h w c dim acti bn res do g :
  tshape m = [d; h; w; c] ->
  conv_block m dim acti bn res do g
  = conv_block_keras m d h w c dim acti bn res do g.
Proof.
  intros Hm. unfold conv_block, conv_block_keras, bind.
  rewrite (call_same_conv m d h w c) by exact Hm.
  cbv beta iota zeta delta [emit ret].
  destruct bn, (truthy do), res; repeat keras_step; reflexivity.
Qed.

(** [conv_block] keeps the three spatial extents; its output has [dim]
    channels, or [c + dim] with the residual concatenation. *)
Lemma conv_block_keras_shape m d h w c dim acti bn res do g :
  tshape m = [d; h; w; c] ->
  exists t g',
    conv_block m dim acti bn res do g = inr (t, g') /\
    tshape t = [d; h; w; if res then c + dim else dim].
Proof.
  intros Hm. rewrite (conv_block_keras_eq m d h w c) by exact Hm.
  unfold conv_block_keras, bind, emit, ret.
  destruct bn, (truthy do), res; eexists; eexists; split; reflexivity.
Qed.

Lemma conv_needs_volume f k s a p n g t g' :
  call (Conv3D f k s a p) [n] g = inr (t, g') ->
  exists d h w c, tshape n = [d; h; w; c].
Proof.
  intros Hrun. apply call_inr in Hrun as (_ & _ & Hs).
  cbn [map compute_output_shape keras] in Hs.
  destruct (tshape n) as [| d [| h [| w [| c [| x rest]]]]];
    try discriminate Hs.
  now exists d, h, w, c.
Qed.

(** A block that returns was given a volume, and returns one of the same
    extents. *)
Lemma conv_block_keras_inr m dim acti bn res do g t g' :
  conv_block m dim acti bn res do g = inr (t, g') ->
  exists d h w c,
    tshape m = [d; h; w; c] /\
    tshape t = [d; h; w; if res then c + dim else dim].
Proof.
  intros Hrun. pose proof Hrun as Hfirst.
  unfold conv_block in Hfirst.
  apply bind_inr in Hfirst as (n1 & g1 & Hfirst & _).
  apply conv_needs_volume in Hfirst as (d & h & w & c & Hm).
  exists d, h, w, c. split; [exact Hm |].
  rewrite (conv_block_keras_eq m d h w c) in Hrun by exact Hm.
  unfold conv_block_keras, bind, emit, ret in Hrun.
  destruct bn, (truthy do), res; injection Hrun as <- _; reflexivity.
Qed.

(** ** The shape of the output *)

Section OutputShape.

(** With pooling and upsampling, under the shape rules, a level whose input
    has trailing extents [2^k * h] and [2^k * w] gives them back; neither
    the level nor the levels inside it touch the first extent. *)
Lemma level_block_keras_shape k :
  forall m d h w c dim inc acti do bn res g bottleneck,
    tshape m = [d; 2 ^ Z.of_nat k * h; 2 ^ Z.of_nat k * w; c] ->
    level_dim dim inc k = inr bottleneck ->
    exists t g' c',
      level_block_rec k m dim inc acti do bn true true res g = inr (t, g') /\
      tshape t = [d; 2 ^ Z.of_nat k * h; 2 ^ Z.of_nat k * w; c'].
Proof.
  induction k as [| k IH];
    intros m d h w c dim inc acti do bn res g bottleneck Hm Hdims.
  - cbn [level_block_rec].
    destruct (conv_block_keras_shape m d _ _ c dim acti bn res do g Hm)
      as (t & g' & Hrun & Ht).
    now exists t, g', (if res then c + dim else dim).
  - assert (forall x, 2 ^ Z.of_nat (S k) * x = 2 * (2 ^ Z.of_nat k * x)) as E.
    { intros x. rewrite Nat2Z.inj_succ, Z.pow_succ_r by lia. ring. }
    rewrite !E in *.
    set (H := 2 ^ Z.of_nat k * h) in *. set (W := 2 ^ Z.of_nat k * w) in *.
    rewrite level_dim_step in Hdims.
    destruct (int_mul inc dim) as [e | dim'] eqn:Hdim; [discriminate |].
    cbn [level_block_rec].
    destruct (conv_block_keras_shape m d _ _ c dim acti bn res 0 g Hm)
      as (n & g1 & Henc & Hn).
    rewrite (bind_run _ _ _ _ _ Henc).
    unfold bind at 1.
    rewrite (call_max_pooling n d H W _ g1 Hn). unfold emit at 1.
    set (m1 := {| tid := length g1; tshape := _ |}).
    set (g2 := _ :: g1).
    unfold bind at 1. rewrite Hdim. unfold lift at 1.
    destruct (IH m1 d h w _ dim' inc acti do bn res g2 bottleneck
                 eq_refl Hdims) as (m2 & g3 & c2 & Hin & Hm2).
    rewrite (bind_run _ _ _ _ _ Hin).
    fold H W in Hm2.
    unfold bind at 1. unfold bind at 1.
    rewrite (call_up_sampling m2 d H W c2 g3 Hm2). unfold emit at 1.
    rewrite (call_same_conv _ d (2 * H) (2 * W) c2) by reflexivity.
    unfold emit at 1.
    unfold bind at 1.
    rewrite (call_concatenate n _ d (2 * H) (2 * W) _ dim)
      by (exact Hn || reflexivity).
    unfold emit at 1.
    match goal with
    | |- context [conv_block ?n' dim acti bn res 0 ?g'] =>
        destruct (conv_block_keras_shape n' d (2 * H) (2 * W) _ dim acti bn
                    res 0 g' eq_refl) as (t & g5 & Hdec & Ht)
    end.
    eexists t, g5, _. split; [exact Hdec | exact Ht].
Qed.

(** C5, as the code has it: with pooling and upsampling, on a volume whose
    height and width are multiples of [2 ^ depth], and with channel counts
    that can be computed at every level, there is a model, with the given
    input shape and with the same three spatial extents and [out_ch]
    channels at the output, whose operations have the shapes of the shape
    rules, and which [UNet] returns with every tensor library that accepts
    these operations. *)
Theorem C5_output_shape D H W C out_ch start_ch depth inc_rate activation
    dropout batchnorm residual bottleneck :
  0 <= depth ->
  (2 ^ depth | H) -> (2 ^ depth | W) ->
  level_dim start_ch inc_rate (Z.to_nat depth) = inr bottleneck ->
  exists mdl,
    tshape (inputs mdl) = [D; H; W; C] /\
    tshape (outputs mdl) = [D; H; W; out_ch] /\
    accepts keras (layers mdl) = true /\
    forall B : Backend,
      accepts B (layers mdl) = true ->
      @UNet B [D; H; W; C] out_ch start_ch depth inc_rate activation dropout
            batchnorm true true residual = inr mdl.
Proof.
  intros Hd [h Hh] [w Hw] Hdims.
  assert (exists mdl,
            @UNet keras [D; H; W; C] out_ch start_ch depth inc_rate
                  activation dropout batchnorm true true residual = inr mdl /\
            tshape (inputs mdl) = [D; H; W; C] /\
            tshape (outputs mdl) = [D; H; W; out_ch])
    as (mdl & Hrun & Hi & Ho).
  { unfold UNet, level_block.
    unfold bind at 1. unfold call at 1. cbn [compute_output_shape keras map
      keras_output_shape]. unfold emit at 1.
    set (i := {| tid := length (@nil op); tshape := _ |}).
    set (g1 := [_]).
    destruct (level_block_keras_shape (Z.to_nat depth) i D h w C start_ch
                inc_rate activation dropout batchnorm residual g1 bottleneck)
      as (o & g2 & c' & Hrun & Ho); [| exact Hdims |].
    { subst i. cbn [tshape]. rewrite Z2Nat.id by lia. do 2 f_equal; [lia |].
      f_equal. lia. }
    rewrite (bind_run _ _ _ _ _ Hrun).
    unfold bind at 1.
    rewrite (call_pointwise_conv o _ _ _ _ out_ch _ g2 Ho).
    unfold emit, ret. eexists. split; [reflexivity |].
    cbn [inputs outputs tshape]. subst i. cbn [tshape].
    rewrite Z2Nat.id by lia.
    replace (2 ^ depth * h) with H by lia.
    replace (2 ^ depth * w) with W by lia.
    now split. }
  exists mdl. split; [exact Hi |]. split; [exact Ho |].
  split; [now apply (UNet_follows keras keras _ _ _ _ _ _ _ _ _ _ _ _ Hrun) |].
  intros B HB.
  now apply (UNet_follows keras B _ _ _ _ _ _ _ _ _ _ _ _ Hrun).
Qed.

(** The pooling and the upsampling that [level_block] creates leave the
    first spatial axis alone. *)
Lemma pooling_and_upsampling_keep_first_axis d h w c :
  keras_output_shape (MaxPooling3D (1, 2, 2)) [[d; h; w; c]]
    = Some [d; conv_output_length h 2 valid 2;
            conv_output_length w 2 valid 2; c] /\
  keras_output_shape (UpSampling3D (1, 2, 2)) [[d; h; w; c]]
    = Some [d; 2 * h; 2 * w; c].
Proof.
  cbn [keras_output_shape]. now rewrite conv_valid_unit, Z.mul_1_l.
Qed.

(** C2 fails on the path [maxpool = false]: the downsampling convolution is
    built with [strides = 2], which Keras applies to all three spatial axes,
    so the first axis is halved as well ([8] becomes [4]); the upsampling
    restores the two trailing axes only, and the merge with the skip tensor
    is refused. *)
Theorem C2_strided_convolution_halves_first_axis :
  (forall i d h w c dim g,
     call (Conv3D dim 3 2 None same) [{| tid := i; tshape := [d; h; w; c] |}] g
     = emit (Conv3D dim 3 2 None same) [{| tid := i; tshape := [d; h; w; c] |}]
            [(d + 1) / 2; (h + 1) / 2; (w + 1) / 2; dim] g) /\
  keras_output_shape (Conv3D 4 3 2 None same) [[8; 64; 64; 4]]
    = Some [4; 32; 32; 4] /\
  UNet [8; 64; 64; 1] 1 4 1 (py_float 2 1) "relu" (1 # 2) false false true false
    = inl (BackendError Concatenate [[8; 64; 64; 4]; [4; 64; 64; 4]]).
Proof.
  split; [| split; vm_compute; reflexivity].
  intros i d h w c dim g. now apply (call_strided_conv _ d h w c).
Qed.

End OutputShape.

Lemma C5_output_shape_witness :
  exists mdl,
    tshape (inputs mdl) = [8; 64; 64; 1] /\
    tshape (outputs mdl) = [8; 64; 64; 2] /\
    UNet [8; 64; 64; 1] 2 64 3 (py_float 2 1) "relu" (1 # 2)
         false true true false
    = inr mdl.
Proof.
  destruct (C5_output_shape 8 64 64 1 2 64 3 (py_float 2 1) "relu" (1 # 2)
              false false 512) as (mdl & Hi & Ho & Hok & Hrun).
  - lia.
  - exists 8. reflexivity.
  - exists 8. reflexivity.
  - vm_compute. reflexivity.
  - exists mdl. split; [exact Hi |]. split; [exact Ho |].
    apply (Hrun keras). exact Hok.
Defined.

(** C5 as stated does not hold for every shape: with an odd height and
    width, pooling rounds down, upsampling gives [64] back for [65], and the
    merge with the skip tensor is refused; no model is returned. *)
Lemma C5_counterexample_odd_extent :
  UNet [8; 65; 65; 1] 1 64 1 (py_float 2 1) "relu" (1 # 2) false true true false
  = inl (BackendError Concatenate [[8; 65; 65; 64]; [8; 64; 64; 64]]).
Proof. vm_compute. reflexivity. Qed.

(** ** What a block returns, and where its dropout goes *)

Section Blocks.

Lemma truthy_iff q : truthy q = true <-> ~ q == 0.
Proof.
  unfold truthy, Qeq. cbn [Qnum Qden].
  rewrite negb_true_iff, Z.eqb_neq. lia.
Qed.

Lemma truthy_negative q : (q < 0)%Q -> truthy q = true.
Proof.
  intros Hq. apply truthy_iff. intros Hz. rewrite Hz in Hq.
  now apply Qlt_irrefl in Hq.
Qed.

(** Under the shape rules a block on a volume returns; with another
    library it returns the same as long as that library accepts the
    operations of the block. *)
Lemma conv_block_any_library m d h w c dim acti bn res do g t new :
  tshape m = [d; h; w; c] ->
  conv_block_keras m d h w c dim acti bn res do g = inr (t, new ++ g) ->
  accepts keras new = true /\
  forall B : Backend,
    accepts B new = true ->
    @conv_block B m dim acti bn res do g = inr (t, new ++ g).
Proof.
  intros Hm Hrun. rewrite <- (conv_block_keras_eq m d h w c) in Hrun
    by exact Hm.
  split.
  - destruct (follows_conv_block keras keras m dim acti bn res do _ _ _ Hrun)
      as (new' & E & Hok & _).
    apply app_inv_tail in E. now subst new'.
  - intros B HB.
    destruct (follows_conv_block keras B m dim acti bn res do _ _ _ Hrun)
      as (new' & E & _ & Hsame).
    apply app_inv_tail in E. subst new'. now apply Hsame.
Qed.

(** Where the dropout of a block goes, whatever the library. *)
Lemma conv_block_dropout_position (B : Backend) m dim acti bn res do g t g' :
  @conv_block B m dim acti bn res do g = inr (t, g') ->
  exists conv1 n dropped post,
    g' = post ++
         (if truthy do
          then [{| op_layer := Dropout do; op_inputs := [n];
                   op_output := dropped |}]
          else []) ++
         (if bn
          then [{| op_layer := BatchNormalization; op_inputs := [conv1];
                   op_output := n |}]
          else []) ++
         {| op_layer := Conv3D dim 3 1 (Some acti) same; op_inputs := [m];
            op_output := conv1 |} :: g /\
    (bn = false -> n = conv1) /\
    Forall (fun o => is_dropout (op_layer o) = false) post.
Proof.
  unfold conv_block. intros Hrun.
  apply bind_inr in Hrun as (n1 & g1 & H1 & Hrun).
  apply bind_inr in Hrun as (n2 & g2 & H2 & Hrun).
  apply bind_inr in Hrun as (n3 & g3 & H3 & Hrun).
  apply bind_inr in Hrun as (n4 & g4 & H4 & Hrun).
  apply bind_inr in Hrun as (n5 & g5 & H5 & Hrun).
  apply call_inr in H1 as (-> & _ & _).
  apply call_inr in H4 as (-> & _ & _).
  exists n1, n2, n3.
  exists ((if res
           then [{| op_layer := Concatenate; op_inputs := [m; n5];
                    op_output := t |}]
           else []) ++
          (if bn
           then [{| op_layer := BatchNormalization; op_inputs := [n4];
                    op_output := n5 |}]
           else []) ++
          [{| op_layer := Conv3D dim 3 1 (Some acti) same; op_inputs := [n3];
              op_output := n4 |}]).
  destruct bn, (truthy do), res;
    repeat match goal with
           | Hc : call _ _ _ = inr _ |- _ =>
               apply call_inr in Hc as (-> & _ & _)
           | Hr : ret _ _ = inr _ |- _ => injection Hr as <- <-
           end;
    cbn [app]; (split; [reflexivity |]);
    (split; [first [discriminate | intros _; reflexivity] |]);
    repeat constructor.
Qed.

(** C8: whatever the tensor library, a [conv_block] that returns with
    [res = true] returns the output of a concatenation of its own input and
    of [n], the result of the second convolution (of its normalization when
    [bn] is set), and with [res = false] it returns [n].  On a tensor [m] of
    shape [(d, h, w, c)] the shape rules give [n] the shape
    [(d, h, w, dim)] and the concatenation [c + dim] channels, and the
    block returns this with every library that accepts its operations.
    Under the shape rules a block that returns was given such a tensor and
    returns one with [c + dim] channels when [res] is set, with [dim]
    otherwise. *)
Theorem C8_residual_concatenation i d h w c dim acti bn res do g :
  let m := {| tid := i; tshape := [d; h; w; c] |} in
  (forall (B : Backend) m' g0 t' g',
     @conv_block B m' dim acti bn res do g0 = inr (t', g') ->
     exists x conv2 n pre,
       g' = (if res
             then [{| op_layer := Concatenate; op_inputs := [m'; n];
                      op_output := t' |}]
             else []) ++
            (if bn
             then [{| op_layer := BatchNormalization; op_inputs := [conv2];
                      op_output := n |}]
             else []) ++
            {| op_layer := Conv3D dim 3 1 (Some acti) same; op_inputs := [x];
               op_output := conv2 |} :: pre /\
       (bn = false -> n = conv2) /\
       (res = false -> t' = n)) /\
  (exists x conv2 n t pre new,
     new = (if res
            then [{| op_layer := Concatenate; op_inputs := [m; n];
                     op_output := t |}]
            else []) ++
           (if bn
            then [{| op_layer := BatchNormalization; op_inputs := [conv2];
                     op_output := n |}]
            else []) ++
           {| op_layer := Conv3D dim 3 1 (Some acti) same; op_inputs := [x];
              op_output := conv2 |} :: pre /\
     accepts keras new = true /\
     (forall B : Backend,
        accepts B new = true ->
        @conv_block B m dim acti bn res do g = inr (t, new ++ g)) /\
     (bn = false -> n = conv2) /\
     (res = false -> t = n) /\
     tshape conv2 = [d; h; w; dim] /\
     tshape n = [d; h; w; dim] /\
     tshape t = [d; h; w; if res then c + dim else dim]) /\
  (forall m' g0 t' g',
     @conv_block keras m' dim acti bn res do g0 = inr (t', g') ->
     exists d' h' w' c',
       tshape m' = [d'; h'; w'; c'] /\
       tshape t' = [d'; h'; w'; if res then c' + dim else dim]).
Proof.
  intros m. split.
  { intros B m' g0 t' g'. apply conv_block_result. }
  split; [| intros m' g0 t' g'; apply conv_block_keras_inr].
  destruct bn, (truthy do) eqn:Hdo, res;
    do 4 eexists;
    (refine (ex_intro _ [_; _; _] _) + refine (ex_intro _ [_; _] _)
     + refine (ex_intro _ [_] _));
    eexists; (split; [reflexivity |]);
    (apply and_assoc; split;
     [apply (conv_block_any_library m d h w c); [reflexivity |];
      unfold conv_block_keras, bind, emit, ret; rewrite Hdo; reflexivity |]);
    repeat split; try reflexivity; try discriminate.
Qed.

(** C10: [conv_block] creates a dropout exactly when [do] is truthy, that is
    not zero, so also when it is negative.  Whatever the tensor library, in
    a block that returns the dropout takes the result of the first
    convolution (of its normalization when [bn] is set), and no other
    operation of the block is a dropout; on a tensor of shape
    [(d, h, w, c)] the block returns with every library that accepts its
    operations.  In a model returned by [UNet] a dropout layer is present
    exactly when [dropout] is not zero, and it carries that rate. *)
Theorem C10_dropout_iff_truthy i d h w c dim acti bn res do g :
  let m := {| tid := i; tshape := [d; h; w; c] |} in
  (truthy do = true <-> ~ do == 0) /\
  ((do < 0)%Q -> truthy do = true) /\
  (forall (B : Backend) m' g0 t' g',
     @conv_block B m' dim acti bn res do g0 = inr (t', g') ->
     exists conv1 n dropped post,
       g' = post ++
            (if truthy do
             then [{| op_layer := Dropout do; op_inputs := [n];
                      op_output := dropped |}]
             else []) ++
            (if bn
             then [{| op_layer := BatchNormalization; op_inputs := [conv1];
                      op_output := n |}]
             else []) ++
            {| op_layer := Conv3D dim 3 1 (Some acti) same; op_inputs := [m'];
               op_output := conv1 |} :: g0 /\
       (bn = false -> n = conv1) /\
       Forall (fun o => is_dropout (op_layer o) = false) post) /\
  (exists t new,
     accepts keras new = true /\
     (forall r, In (Dropout r) (map op_layer new) <-> ~ do == 0 /\ r = do) /\
     forall B : Backend,
       accepts B new = true ->
       @conv_block B m dim acti bn res do g = inr (t, new ++ g)) /\
  (forall (B : Backend) m' g0 t' g',
     @conv_block B m' dim acti bn res do g0 = inr (t', g') ->
     exists new,
       g' = new ++ g0 /\
       forall r, In (Dropout r) (map op_layer new) <-> ~ do == 0 /\ r = do) /\
  (forall (B : Backend) img_shape out_ch start_ch depth inc_rate batchnorm
          maxpool upconv residual mdl,
     @UNet B img_shape out_ch start_ch depth inc_rate acti do
           batchnorm maxpool upconv residual = inr mdl ->
     forall r, In (Dropout r) (map op_layer (layers mdl)) <->
               ~ do == 0 /\ r = do).
Proof.
  intros m. split; [apply truthy_iff |].
  split; [apply truthy_negative |].
  split; [intros B m' g0 t' g'; apply conv_block_dropout_position |].
  assert (forall (B : Backend) m' g0 t' g',
            @conv_block B m' dim acti bn res do g0 = inr (t', g') ->
            exists new,
              g' = new ++ g0 /\
              forall r, In (Dropout r) (map op_layer new) <->
                        ~ do == 0 /\ r = do) as Hany.
  { intros B m' g0 t' g' Hrun.
    apply conv_block_inr in Hrun as (new & -> & Hnew).
    exists new. split; [reflexivity |]. intros r.
    now rewrite Hnew, conv_block_dropout_layers, truthy_iff. }
  split; [| split; [exact Hany |]].
  - destruct (conv_block_keras_shape m d h w c dim acti bn res do g eq_refl)
      as (t & g' & Hrun & _).
    destruct (Hany keras m g t g' Hrun) as (new & -> & Hdrop).
    rewrite (conv_block_keras_eq m d h w c) in Hrun by reflexivity.
    exists t, new.
    destruct (conv_block_any_library m d h w c dim acti bn res do g t new
                eq_refl Hrun) as [Hok Hall].
    split; [exact Hok | split; [exact Hdrop | exact Hall]].
  - intros B img_shape out_ch start_ch depth inc_rate batchnorm maxpool
      upconv residual mdl Hrun r.
    rewrite (UNet_dropout_layers _ _ _ _ _ _ _ _ _ _ _ _ r Hrun).
    now rewrite truthy_iff.
Qed.

End Blocks.

(** ** Normalization changes nothing else *)

Section Normalization.

Lemma skeleton_cons o g :
  skeleton (o :: g) =
  if is_batchnorm (op_layer o) then skeleton g
  else (op_layer o, map tshape (op_inputs o), tshape (op_output o))
       :: skeleton g.
Proof.
  unfold skeleton. cbn [filter]. now destruct (is_batchnorm (op_layer o)).
Qed.

Lemma same_outcome_call l ins1 ins2 g1 g2 :
  is_batchnorm l = false ->
  map tshape ins1 = map tshape ins2 ->
  skeleton g1 = skeleton g2 ->
  same_outcome (call l ins1 g1) (call l ins2 g2).
Proof.
  intros Hl Hins Hg. unfold call. rewrite <- Hins.
  destruct (compute_output_shape l (map tshape ins1)) as [s |];
    [| reflexivity].
  unfold emit. cbn [same_outcome tshape]. split; [reflexivity |].
  rewrite !skeleton_cons. cbn [op_layer op_inputs op_output tshape].
  now rewrite Hl, Hins, Hg.
Qed.

Lemma same_outcome_bind c1 c2 (f1 f2 : tensor -> M tensor) g1 g2 :
  same_outcome (c1 g1) (c2 g2) ->
  (forall a1 a2 h1 h2,
     tshape a1 = tshape a2 -> skeleton h1 = skeleton h2 ->
     same_outcome (f1 a1 h1) (f2 a2 h2)) ->
  same_outcome (bind c1 f1 g1) (bind c2 f2 g2).
Proof.
  intros Hc Hf. unfold bind.
  destruct (c1 g1) as [e1 | [a1 h1]], (c2 g2) as [e2 | [a2 h2]];
    cbn [same_outcome] in Hc; try contradiction.
  - exact Hc.
  - destruct Hc as [Ha Hh]. now apply Hf.
Qed.

(** A normalization gives its input shape back and is not part of the
    skeleton: creating it or not makes no difference to what follows. *)
Lemma same_outcome_batchnorm n1 n2 g1 g2 :
  tshape n1 = tshape n2 ->
  skeleton g1 = skeleton g2 ->
  same_outcome (call BatchNormalization [n1] g1) (ret n2 g2).
Proof.
  intros Hn Hg. rewrite call_batchnorm. unfold emit, ret.
  cbn [same_outcome tshape]. split; [exact Hn |].
  now rewrite skeleton_cons.
Qed.

Lemma same_outcome_ret n1 n2 g1 g2 :
  tshape n1 = tshape n2 ->
  skeleton g1 = skeleton g2 ->
  same_outcome (ret n1 g1) (ret n2 g2).
Proof. intros Hn Hg. now split. Qed.

Lemma same_outcome_lift_bind {A} (r : error + A) (f1 f2 : A -> M tensor)
    g1 g2 :
  (forall a, same_outcome (f1 a g1) (f2 a g2)) ->
  same_outcome (bind (lift r) f1 g1) (bind (lift r) f2 g2).
Proof.
  intros Hf. unfold bind, lift. destruct r as [e | a]; [reflexivity |].
  apply Hf.
Qed.

Lemma same_outcome_conv_block m1 m2 dim acti res do g1 g2 :
  tshape m1 = tshape m2 ->
  skeleton g1 = skeleton g2 ->
  same_outcome (conv_block m1 dim acti true res do g1)
               (conv_block m2 dim acti false res do g2).
Proof.
  intros Hm Hg. unfold conv_block.
  apply same_outcome_bind.
  { apply same_outcome_call; [reflexivity | cbn; now rewrite Hm | exact Hg]. }
  intros a1 a2 h1 h2 Ha Hh. apply same_outcome_bind.
  { now apply same_outcome_batchnorm. }
  clear a1 a2 h1 h2 Ha Hh. intros a1 a2 h1 h2 Ha Hh. apply same_outcome_bind.
  { destruct (truthy do).
    - apply same_outcome_call; [reflexivity | cbn; now rewrite Ha | exact Hh].
    - now apply same_outcome_ret. }
  clear a1 a2 h1 h2 Ha Hh. intros a1 a2 h1 h2 Ha Hh. apply same_outcome_bind.
  { apply same_outcome_call; [reflexivity | cbn; now rewrite Ha | exact Hh]. }
  clear a1 a2 h1 h2 Ha Hh. intros a1 a2 h1 h2 Ha Hh. apply same_outcome_bind.
  { now apply same_outcome_batchnorm. }
  clear a1 a2 h1 h2 Ha Hh. intros a1 a2 h1 h2 Ha Hh.
  destruct res.
  - apply same_outcome_call;
      [reflexivity | cbn; now rewrite Hm, Ha | exact Hh].
  - now apply same_outcome_ret.
Qed.

Lemma same_outcome_level_block k :
  forall m1 m2 dim inc acti do mp up res g1 g2,
    tshape m1 = tshape m2 ->
    skeleton g1 = skeleton g2 ->
    same_outcome (level_block_rec k m1 dim inc acti do true mp up res g1)
                 (level_block_rec k m2 dim inc acti do false mp up res g2).
Proof.
  induction k as [| k IH];
    intros m1 m2 dim inc acti do mp up res g1 g2 Hm Hg;
    cbn [level_block_rec].
  - now apply same_outcome_conv_block.
  - apply same_outcome_bind; [now apply same_outcome_conv_block |].
    intros n1 n2 h1 h2 Hn Hh. apply same_outcome_bind.
    { destruct mp; apply same_outcome_call;
        solve [reflexivity | cbn; now rewrite Hn | exact Hh]. }
    intros a1 a2 k1 k2 Ha Hk.
    apply same_outcome_lift_bind. intros dim'.
    apply same_outcome_bind; [now apply IH |].
    clear a1 a2 k1 k2 Ha Hk. intros a1 a2 k1 k2 Ha Hk.
    apply same_outcome_bind.
    { destruct up; [| reflexivity].
      apply same_outcome_bind.
      - apply same_outcome_call;
          [reflexivity | cbn; now rewrite Ha | exact Hk].
      - intros u1 u2 l1 l2 Hu Hl. apply same_outcome_call;
          [reflexivity | cbn; now rewrite Hu | exact Hl]. }
    clear a1 a2 k1 k2 Ha Hk. intros a1 a2 k1 k2 Ha Hk.
    apply same_outcome_bind.
    { apply same_outcome_call;
        [reflexivity | cbn; now rewrite Hn, Ha | exact Hk]. }
    clear a1 a2 k1 k2 Ha Hk. intros a1 a2 k1 k2 Ha Hk.
    now apply same_outcome_conv_block.
Qed.

Lemma norm_marks_app a b : norm_marks (a ++ b) = norm_marks a ++ norm_marks b.
Proof. apply flat_map_app. Qed.

Lemma norm_marks_conv_block dim acti bn res do :
  norm_marks (conv_block_layers dim acti bn res do) =
  if bn then [true; false; true; false] else [false; false].
Proof.
  unfold conv_block_layers. now destruct bn, res, (truthy do).
Qed.

Lemma norm_marks_level_block k : forall dim inc acti do bn mp res,
  norm_marks (level_block_layers k dim inc acti do bn mp res) =
  concat (repeat (if bn then [true; false] else [false]) (4 * k + 2)).
Proof.
  induction k as [| k IH]; intros dim inc acti do bn mp res;
    cbn [level_block_layers].
  - rewrite norm_marks_conv_block. now destruct bn.
  - rewrite !norm_marks_app, !norm_marks_conv_block, IH.
    replace (norm_marks [Concatenate; Conv3D dim 2 1 (Some acti) same;
                         UpSampling3D (1, 2, 2)]) with (@nil bool)
      by reflexivity.
    replace (norm_marks [if mp then MaxPooling3D (1, 2, 2)
                         else Conv3D dim 3 2 None same]) with (@nil bool)
      by (now destruct mp).
    replace (4 * S k + 2)%nat with (2 + ((4 * k + 2) + 2))%nat by lia.
    rewrite !repeat_app, !concat_app. cbn [app].
    now destruct bn.
Qed.

End Normalization.

Section NormalizationFrame.

Lemma UNet_run img_shape out_ch start_ch depth inc_rate activation dropout
    batchnorm maxpool upconv residual :
  UNet img_shape out_ch start_ch depth inc_rate activation dropout
       batchnorm maxpool upconv residual =
  match call (Input img_shape) [] [] with
  | inl e => inl e
  | inr (i, g1) =>
      match level_block i start_ch depth inc_rate activation dropout
                        batchnorm maxpool upconv residual g1 with
      | inl e => inl e
      | inr (o, g2) =>
          match call (Conv3D out_ch 1 1 (Some "sigmoid"%string) valid) [o] g2
          with
          | inl e => inl e
          | inr (o', g3) =>
              inr {| inputs := i; outputs := o'; layers := g3 |}
          end
      end
  end.
Proof.
  unfold UNet, bind, ret.
  destruct (call (Input img_shape) [] []) as [e | [i g1]]; [reflexivity |].
  destruct (level_block _ _ _ _ _ _ _ _ _ _ g1) as [e | [o g2]];
    [reflexivity |].
  now destruct (call _ [o] g2) as [e | [o' g3]].
Qed.

Lemma count_batchnorm_marks ls :
  length (filter is_batchnorm ls)
  = length (filter (fun b : bool => b) (norm_marks ls)).
Proof.
  induction ls as [| l ls IH]; [reflexivity |].
  change (norm_marks (l :: ls)) with (norm_mark_of l ++ norm_marks ls).
  rewrite filter_app, length_app, <- IH.
  destruct l; cbn; try reflexivity.
  now destruct ((kernel_size =? 3) && (strides =? 1)).
Qed.

Lemma count_true_pairs n :
  length (filter (fun b : bool => b) (concat (repeat [true; false] n))) = n.
Proof. induction n as [| n IH]; [reflexivity | cbn; now rewrite IH]. Qed.

Lemma count_true_none n :
  length (filter (fun b : bool => b) (concat (repeat [false] n))) = O.
Proof. induction n as [| n IH]; [reflexivity | exact IH]. Qed.

Lemma UNet_norm_marks img_shape out_ch start_ch depth inc_rate activation
    dropout batchnorm maxpool upconv residual mdl :
  UNet img_shape out_ch start_ch depth inc_rate activation dropout
       batchnorm maxpool upconv residual = inr mdl ->
  norm_marks (map op_layer (layers mdl)) =
  concat (repeat (if batchnorm then [true; false] else [false])
                 (4 * Z.to_nat depth + 2)).
Proof.
  intros Hrun. rewrite (UNet_layers _ _ _ _ _ _ _ _ _ _ _ _ Hrun).
  change (norm_marks (?l :: ?ls)) with (norm_mark_of l ++ norm_marks ls).
  rewrite norm_marks_app, norm_marks_level_block.
  cbn [norm_mark_of norm_marks flat_map Z.eqb andb app Pos.eqb].
  now rewrite app_nil_r.
Qed.

(** C9: with all other arguments fixed, [batchnorm = true] and
    [batchnorm = false] fail together, with the same error, or succeed
    together; then the two graphs have the same skeleton, that is the same
    operations other than normalizations, in the same order, with the same
    layers and parameters, input shapes and output shapes; the model
    without normalization has no normalization node, the other has one
    after each of the [4 * depth + 2] block convolutions. *)
Theorem C9_batchnorm_only_adds_normalizations img_shape out_ch start_ch depth
    inc_rate activation dropout maxpool upconv residual :
  match
    UNet img_shape out_ch start_ch depth inc_rate activation dropout
         true maxpool upconv residual,
    UNet img_shape out_ch start_ch depth inc_rate activation dropout
         false maxpool upconv residual
  with
  | inr m1, inr m2 =>
      skeleton (layers m1) = skeleton (layers m2) /\
      tshape (inputs m1) = tshape (inputs m2) /\
      tshape (outputs m1) = tshape (outputs m2) /\
      count_layers is_batchnorm (layers m2) = O /\
      count_layers is_batchnorm (layers m1) = (4 * Z.to_nat depth + 2)%nat /\
      norm_marks (map op_layer (layers m1)) =
        concat (repeat [true; false] (4 * Z.to_nat depth + 2))
  | inl e1, inl e2 => e1 = e2
  | _, _ => False
  end.
Proof.
  destruct (UNet img_shape out_ch start_ch depth inc_rate activation dropout
                 true maxpool upconv residual) as [e1 | m1] eqn:H1;
  destruct (UNet img_shape out_ch start_ch depth inc_rate activation dropout
                 false maxpool upconv residual) as [e2 | m2] eqn:H2.
  all: pose proof H1 as R1; pose proof H2 as R2.
  all: rewrite UNet_run in R1, R2.
  all: destruct (call (Input img_shape) [] []) as [e | [i g1]];
    [congruence |].
  all: pose proof (same_outcome_level_block (Z.to_nat depth) i i start_ch
                     inc_rate activation dropout maxpool upconv residual
                     g1 g1 eq_refl eq_refl) as Hsim.
  all: unfold level_block in R1, R2.
  all: destruct (level_block_rec _ _ _ _ _ _ true _ _ _ g1)
         as [a1 | [o1 k1]];
       destruct (level_block_rec _ _ _ _ _ _ false _ _ _ g1)
         as [a2 | [o2 k2]];
       cbn [same_outcome] in Hsim; try contradiction; try congruence.
  all: destruct Hsim as [Ho Hk].
  all: pose proof (same_outcome_call
                     (Conv3D out_ch 1 1 (Some "sigmoid"%string) valid)
                     [o1] [o2] k1 k2 eq_refl
                     ltac:(cbn [map]; now rewrite Ho) Hk) as Hfin.
  all: destruct (call _ [o1] k1) as [b1 | [p1 l1]];
       destruct (call _ [o2] k2) as [b2 | [p2 l2]];
       cbn [same_outcome] in Hfin; try contradiction; try congruence.
  destruct Hfin as [Hp Hl].
  pose proof (UNet_norm_marks _ _ _ _ _ _ _ _ _ _ _ _ H1) as N1.
  pose proof (UNet_norm_marks _ _ _ _ _ _ _ _ _ _ _ _ H2) as N2.
  injection R1 as <-. injection R2 as <-.
  cbn [inputs outputs layers] in *.
  repeat split; try assumption.
  - unfold count_layers. rewrite count_batchnorm_marks, N2.
    apply count_true_none.
  - unfold count_layers. rewrite count_batchnorm_marks, N1.
    apply count_true_pairs.
Qed.

End NormalizationFrame.

(** ** The theorems at concrete configurations *)

Lemma C6_dropout_only_in_bottleneck_witness :
  exists mdl,
    UNet [8; 64; 64; 1] 1 64 4 (py_float 2 1) "relu" (1 # 2) false true true false
    = inr mdl /\
    marks (map op_layer (layers mdl)) =
      repeat BlockConv 9 ++ [Drop (1 # 2)] ++ repeat BlockConv 9 /\
    count_layers is_dropout (layers mdl) = 1%nat /\
    (count_layers is_dropout (layers mdl) <= 1)%nat.
Proof.
  destruct (UNet [8; 64; 64; 1] 1 64 4 (py_float 2 1) "relu" (1 # 2) false true true false)
    as [e | mdl] eqn:Hrun; [vm_compute in Hrun; discriminate |].
  exists mdl. split; [reflexivity |].
  exact (C6_dropout_only_in_bottleneck [8; 64; 64; 1] 1 64 4 (py_float 2 1) "relu" (1 # 2)
           false true true false mdl Hrun).
Defined.

Lemma C7_final_sigmoid_convolution_witness :
  exists mdl o g2,
    UNet [8; 64; 64; 1] 3 64 2 (py_float 2 1) "relu" (1 # 2) true true true true
    = inr mdl /\
    layers mdl =
      {| op_layer := Conv3D 3 1 1 (Some "sigmoid"%string) valid;
         op_inputs := [o];
         op_output := outputs mdl |} :: g2 /\
    count_layers is_pointwise_conv (layers mdl) = 1%nat.
Proof.
  destruct (UNet [8; 64; 64; 1] 3 64 2 (py_float 2 1) "relu" (1 # 2) true true true true)
    as [e | mdl] eqn:Hrun; [vm_compute in Hrun; discriminate |].
  destruct (C7_final_sigmoid_convolution [8; 64; 64; 1] 3 64 2 (py_float 2 1) "relu"
              (1 # 2) true true true true mdl Hrun)
    as (i & g1 & o & g2 & _ & _ & Hl & Hc).
  exists mdl, o, g2. split; [reflexivity |]. split; [exact Hl | exact Hc].
Defined.

Lemma C8_residual_concatenation_witness :
  (exists t g',
     conv_block {| tid := 0; tshape := [8; 64; 64; 1] |} 4 "relu" true true
                (1 # 2) []
     = inr (t, g') /\ tshape t = [8; 64; 64; 1 + 4]) /\
  (exists x conv2 pre,
     conv_block {| tid := 0; tshape := [8; 64; 64; 1] |} 4 "relu" false false
                (1 # 2) []
     = inr (conv2,
            {| op_layer := Conv3D 4 3 1 (Some "relu"%string) same;
               op_inputs := [x]; op_output := conv2 |} :: pre) /\
     tshape conv2 = [8; 64; 64; 4]).
Proof.
  split.
  - destruct (C8_residual_concatenation 0 8 64 64 1 4 "relu" true true
                (1 # 2) [])
      as (_ & (x & conv2 & n & t & pre & new & _ & Hok & Hrun & _ & _ & _ & _
               & Ht) & _).
    exists t. eexists. split; [exact (Hrun keras Hok) | exact Ht].
  - destruct (C8_residual_concatenation 0 8 64 64 1 4 "relu" false false
                (1 # 2) [])
      as (_ & (x & conv2 & n & t & pre & new & Hnew & Hok & Hrun & Hn & Ht
               & Hc & _ & _) & _).
    specialize (Hn eq_refl). specialize (Ht eq_refl). subst t n.
    exists x, conv2, pre. split; [| exact Hc].
    rewrite (Hrun keras Hok), Hnew. cbn [app]. now rewrite app_nil_r.
Defined.

Lemma C10_dropout_iff_truthy_witness :
  truthy (-1 # 2) = true /\
  (exists t new,
     conv_block {| tid := 0; tshape := [8; 64; 64; 1] |} 4 "relu" false false
                (-1 # 2) []
     = inr (t, new ++ []) /\
     In (Dropout (-1 # 2)) (map op_layer new)) /\
  exists mdl,
    UNet [8; 64; 64; 1] 1 64 1 (py_float 2 1) "relu" (-1 # 2)
         false true true false
    = inr mdl /\
    In (Dropout (-1 # 2)) (map op_layer (layers mdl)).
Proof.
  destruct (C10_dropout_iff_truthy 0 8 64 64 1 4 "relu" false false (-1 # 2)
              [])
    as (Hiff & Hneg & _ & (t & new & Hok & Hdrop & Hblock) & _ & Hnet).
  split; [apply Hneg; reflexivity |]. split.
  - exists t, new. split; [exact (Hblock keras Hok) |].
    apply Hdrop. split; [| reflexivity].
    apply Hiff. apply Hneg. reflexivity.
  - destruct (UNet [8; 64; 64; 1] 1 64 1 (py_float 2 1) "relu" (-1 # 2)
                   false true true false) as [e | mdl] eqn:Hrun;
      [vm_compute in Hrun; discriminate |].
    exists mdl. split; [reflexivity |].
    apply (Hnet keras _ _ _ _ _ _ _ _ _ _ Hrun). split; [| reflexivity].
    apply Hiff. apply Hneg. reflexivity.
Defined.

(** * Further properties of the builder *)

(** ** The graph is well formed *)

Section WellFormed.
Context `{Backend}.

Lemma tensor_eqb_refl t : tensor_eqb t t = true.
Proof.
  unfold tensor_eqb. now rewrite Nat.eqb_refl, dims_eqb_refl.
Qed.

Lemma defined_in_cons o g x :
  defined_in g x = true -> defined_in (o :: g) x = true.
Proof.
  intros Hx. cbn [defined_in existsb]. fold (defined_in g x).
  rewrite Hx. apply orb_true_r.
Qed.

Lemma builds_on_weaken ins ins' c :
  builds_on ins c -> incl ins ins' -> builds_on ins' c.
Proof.
  intros Hc Hincl g t g' Hwf Hins. apply Hc; [exact Hwf |].
  rewrite forallb_forall in *. intros x Hx. apply Hins, Hincl, Hx.
Qed.

Lemma call_builds_on l ins :
  length ins = arity l -> builds_on ins (call l ins).
Proof.
  intros Har g t g' Hwf Hins Hrun.
  apply call_inr in Hrun as (-> & Ht & _).
  repeat split.
  - cbn [wf_graph op_output op_inputs op_layer].
    rewrite Ht, Har, !Nat.eqb_refl, Hins, Hwf. reflexivity.
  - cbn [defined_in existsb op_output]. now rewrite tensor_eqb_refl.
  - intros x. apply defined_in_cons.
Qed.

Lemma ret_builds_on n : builds_on [n] (ret n).
Proof.
  intros g t g' Hwf Hins [= <- <-]. cbn [forallb] in Hins.
  apply andb_true_iff in Hins as [Hn _]. auto.
Qed.

Lemma raise_builds_on ins e : builds_on ins (raise e).
Proof. intros g t g' _ _ Hrun. discriminate Hrun. Qed.

Lemma bind_builds_on ins c (f : tensor -> M tensor) :
  builds_on ins c ->
  (forall a, builds_on (a :: ins) (f a)) ->
  builds_on ins (bind c f).
Proof.
  intros Hc Hf g t g' Hwf Hins Hrun.
  apply bind_inr in Hrun as (a & g1 & Hc1 & Hf1).
  destruct (Hc g a g1 Hwf Hins Hc1) as (Hwf1 & Ha & Hmono1).
  destruct (Hf a g1 t g' Hwf1) as (Hwf' & Ht & Hmono'); [| exact Hf1 |].
  - cbn [forallb]. rewrite Ha. cbn [andb].
    rewrite forallb_forall in *. intros x Hx. apply Hmono1, Hins, Hx.
  - repeat split; [exact Hwf' | exact Ht |].
    intros x Hx. apply Hmono', Hmono1, Hx.
Qed.

Lemma lift_bind_builds_on {A} ins (r : error + A) (f : A -> M tensor) :
  (forall a, builds_on ins (f a)) -> builds_on ins (bind (lift r) f).
Proof.
  intros Hf g t g' Hwf Hins Hrun.
  apply bind_inr in Hrun as (a & g1 & Hr & Hrun).
  apply lift_inr in Hr as (_ & ->).
  now apply (Hf a).
Qed.

Ltac pick_inputs :=
  let x := fresh in
  let Hx := fresh in
  intros x Hx; cbn [In] in *; intuition.

Ltac builds_call :=
  eapply builds_on_weaken; [apply call_builds_on; reflexivity | pick_inputs].

Lemma opt_call_builds_on (b : bool) l n ins :
  arity l = 1%nat -> In n ins ->
  builds_on ins (if b then call l [n] else ret n).
Proof.
  intros Har Hn. destruct b.
  - eapply builds_on_weaken; [apply call_builds_on; now rewrite Har |].
    intros x [<- | []]. exact Hn.
  - eapply builds_on_weaken; [apply ret_builds_on |].
    intros x [<- | []]. exact Hn.
Qed.

Lemma conv_block_builds_on m dim acti bn res do :
  builds_on [m] (conv_block m dim acti bn res do).
Proof.
  unfold conv_block.
  apply bind_builds_on; [builds_call | intros n1].
  apply bind_builds_on;
    [apply opt_call_builds_on; [reflexivity | now left] | intros n2].
  apply bind_builds_on;
    [apply opt_call_builds_on; [reflexivity | now left] | intros n3].
  apply bind_builds_on; [builds_call | intros n4].
  apply bind_builds_on;
    [apply opt_call_builds_on; [reflexivity | now left] | intros n5].
  destruct res; [builds_call |].
  eapply builds_on_weaken; [apply ret_builds_on | pick_inputs].
Qed.

Lemma level_block_builds_on k : forall m dim inc acti do bn mp up res,
  builds_on [m] (level_block_rec k m dim inc acti do bn mp up res).
Proof.
  induction k as [| k IH]; intros m dim inc acti do bn mp up res;
    cbn [level_block_rec].
  - apply conv_block_builds_on.
  - apply bind_builds_on; [apply conv_block_builds_on | intros n].
    apply bind_builds_on; [destruct mp; builds_call | intros m1].
    apply lift_bind_builds_on. intros dim'.
    apply bind_builds_on;
      [eapply builds_on_weaken; [apply IH | pick_inputs] | intros m2].
    apply bind_builds_on.
    { destruct up; [| apply raise_builds_on].
      apply bind_builds_on; [builds_call | intros u]. builds_call. }
    intros m3.
    apply bind_builds_on; [builds_call | intros n'].
    eapply builds_on_weaken; [apply conv_block_builds_on | pick_inputs].
Qed.

(** X1: a model that [UNet] returns is a well-formed acyclic graph: every
    operation has a fresh output handle and reads only tensors created
    before it; the oldest operation is the one [Input], whose output (handle
    0) is the input of the model; the output of the model is the output of
    the newest operation. *)
Theorem X1_model_is_well_formed img_shape out_ch start_ch depth inc_rate
    activation dropout batchnorm maxpool upconv residual mdl :
  UNet img_shape out_ch start_ch depth inc_rate activation dropout
       batchnorm maxpool upconv residual = inr mdl ->
  wf_graph (layers mdl) = true /\
  defined_in (layers mdl) (inputs mdl) = true /\
  tid (inputs mdl) = O /\
  S (tid (outputs mdl)) = length (layers mdl) /\
  (exists later,
     layers mdl = later ++ [{| op_layer := Input img_shape; op_inputs := [];
                               op_output := inputs mdl |}]) /\
  (exists earlier o,
     layers mdl = o :: earlier /\ op_output o = outputs mdl).
Proof.
  intros Hrun.
  apply UNet_inr in Hrun as (i & g1 & o & g2 & Hi & Hl & Hc & ->).
  destruct (call_builds_on (Input img_shape) [] eq_refl [] i g1
              eq_refl eq_refl Hi) as (Hwf1 & Hi1 & _).
  destruct (level_block_builds_on (Z.to_nat depth) i start_ch inc_rate
              activation dropout batchnorm maxpool upconv residual
              g1 o g2 Hwf1) as (Hwf2 & Ho2 & Hmono2); [| exact Hl |].
  { cbn [forallb]. now rewrite Hi1. }
  destruct (call_builds_on (Conv3D out_ch 1 1 (Some "sigmoid"%string) valid)
              [o] eq_refl g2 (outputs mdl) (layers mdl) Hwf2)
    as (Hwf3 & _ & Hmono3); [| exact Hc |].
  { cbn [forallb]. now rewrite Ho2. }
  apply call_inr in Hi as (-> & Hti & _).
  apply level_block_rec_inr in Hl as (_ & new & -> & _).
  apply call_inr in Hc as (Hg & Hto & _).
  repeat split.
  - exact Hwf3.
  - apply Hmono3, Hmono2, Hi1.
  - exact Hti.
  - rewrite Hg, Hto. reflexivity.
  - eexists (_ :: new). rewrite Hg. reflexivity.
  - eexists _, _. split; [exact Hg | reflexivity].
Qed.

End WellFormed.

Lemma X1_model_is_well_formed_witness :
  exists mdl,
    UNet [8; 64; 64; 1] 1 64 2 (py_float 2 1) "relu" (1 # 2) true true true true
    = inr mdl /\
    wf_graph (layers mdl) = true /\
    tid (inputs mdl) = O /\
    S (tid (outputs mdl)) = length (layers mdl).
Proof.
  destruct (UNet [8; 64; 64; 1] 1 64 2 (py_float 2 1) "relu" (1 # 2) true true true true)
    as [e | mdl] eqn:Hrun; [vm_compute in Hrun; discriminate |].
  destruct (X1_model_is_well_formed [8; 64; 64; 1] 1 64 2 (py_float 2 1) "relu" (1 # 2)
              true true true true mdl Hrun)
    as (Hwf & _ & Hi & Ho & _).
  exists mdl. repeat split; assumption.
Defined.

(** ** How many layers of each kind *)

Section Census.
Context `{Backend}.

Lemma count_kind_app kd a b :
  count_kind kd (a ++ b) = (count_kind kd a + count_kind kd b)%nat.
Proof. unfold count_kind. now rewrite filter_app, length_app. Qed.

Lemma count_kind_conv_block kd dim acti bn res do :
  count_kind kd (conv_block_layers dim acti bn res do) =
  match kd with
  | KBlockConv => 2
  | KNorm => if bn then 2 else 0
  | KDropout => if truthy do then 1 else 0
  | KConcat => if res then 1 else 0
  | _ => 0
  end%nat.
Proof.
  unfold conv_block_layers. now destruct kd, bn, res, (truthy do).
Qed.

Lemma count_kind_level_block kd k : forall dim inc acti do bn mp res,
  count_kind kd (level_block_layers k dim inc acti do bn mp res) =
  match kd with
  | KInput | KPointwiseConv => 0
  | KBlockConv => 4 * k + 2
  | KNorm => if bn then 4 * k + 2 else 0
  | KDropout => if truthy do then 1 else 0
  | KPooling => if mp then k else 0
  | KStridedConv => if mp then 0 else k
  | KUpSampling | KUpConv => k
  | KConcat => k + (if res then 2 * k + 1 else 0)
  end%nat.
Proof.
  induction k as [| k IH]; intros dim inc acti do bn mp res;
    cbn [level_block_layers].
  - rewrite count_kind_conv_block. now destruct kd, bn, mp, res.
  - rewrite !count_kind_app, !count_kind_conv_block, IH.
    change (truthy 0) with false.
    destruct kd, bn, mp, res, (truthy do); cbn; lia.
Qed.

Lemma length_conv_block_layers dim acti bn res do :
  length (conv_block_layers dim acti bn res do) =
  (2 + (if bn then 2 else 0) + (if res then 1 else 0)
   + (if truthy do then 1 else 0))%nat.
Proof.
  unfold conv_block_layers. now destruct bn, res, (truthy do).
Qed.

Lemma length_level_block_layers k : forall dim inc acti do bn mp res,
  length (level_block_layers k dim inc acti do bn mp res) =
  (k * (2 * (2 + (if bn then 2 else 0) + (if res then 1 else 0)) + 4)
   + (2 + (if bn then 2 else 0) + (if res then 1 else 0))
   + (if truthy do then 1 else 0))%nat.
Proof.
  induction k as [| k IH]; intros dim inc acti do bn mp res;
    cbn [level_block_layers].
  - rewrite length_conv_block_layers. lia.
  - rewrite !length_app, !length_conv_block_layers, IH.
    change (truthy 0) with false. cbn [length]. lia.
Qed.

(** X2: the layers of a returned model, counted by role: one input and one
    final pointwise convolution; [4 * depth + 2] block convolutions, each
    with a normalization exactly under [batchnorm]; one downsampling per
    level, a pooling under [maxpool] and a strided convolution otherwise,
    never both kinds; one upsampling and one up-convolution per level; one
    merge per level plus one concatenation per block under [residual]; at
    most one dropout.  With [depth <= 0] there is no pooling, no strided
    convolution and no upsampling at all. *)
Theorem X2_layer_census img_shape out_ch start_ch depth inc_rate activation
    dropout batchnorm maxpool upconv residual mdl :
  UNet img_shape out_ch start_ch depth inc_rate activation dropout
       batchnorm maxpool upconv residual = inr mdl ->
  let n := Z.to_nat depth in
  let b := (2 + (if batchnorm then 2 else 0)
            + (if residual then 1 else 0))%nat in
  (forall kd,
     count_kind kd (map op_layer (layers mdl)) =
     match kd with
     | KInput | KPointwiseConv => 1
     | KBlockConv => 4 * n + 2
     | KNorm => if batchnorm then 4 * n + 2 else 0
     | KDropout => if truthy dropout then 1 else 0
     | KPooling => if maxpool then n else 0
     | KStridedConv => if maxpool then 0 else n
     | KUpSampling | KUpConv => n
     | KConcat => n + (if residual then 2 * n + 1 else 0)
     end%nat) /\
  length (layers mdl) =
    (2 + n * (2 * b + 4) + b + (if truthy dropout then 1 else 0))%nat.
Proof.
  intros Hrun n b.
  pose proof (UNet_layers _ _ _ _ _ _ _ _ _ _ _ _ Hrun) as Hls.
  split.
  - intros kd. rewrite Hls.
    change (?l :: ?a ++ ?c) with ([l] ++ a ++ c).
    rewrite !count_kind_app, count_kind_level_block. fold n.
    destruct kd, batchnorm, maxpool, residual, (truthy dropout); cbn; lia.
  - rewrite <- (length_map op_layer), Hls. cbn [length].
    rewrite length_app, length_level_block_layers. fold n.
    subst b. cbn [length]. lia.
Qed.

End Census.

Lemma X2_layer_census_witness :
  exists mdl,
    UNet [8; 64; 64; 1] 1 64 3 (py_float 2 1) "relu" (1 # 2) true true true true
    = inr mdl /\
    count_kind KPooling (map op_layer (layers mdl)) = 3%nat /\
    count_kind KStridedConv (map op_layer (layers mdl)) = 0%nat /\
    count_kind KConcat (map op_layer (layers mdl)) = 10%nat /\
    length (layers mdl) = 50%nat.
Proof.
  destruct (UNet [8; 64; 64; 1] 1 64 3 (py_float 2 1) "relu" (1 # 2) true true true true)
    as [e | mdl] eqn:Hrun; [vm_compute in Hrun; discriminate |].
  destruct (X2_layer_census [8; 64; 64; 1] 1 64 3 (py_float 2 1) "relu" (1 # 2)
              true true true true mdl Hrun) as [Hkinds Hlen].
  exists mdl. split; [reflexivity |].
  split; [exact (Hkinds KPooling) |].
  split; [exact (Hkinds KStridedConv) |].
  split; [exact (Hkinds KConcat) | exact Hlen].
Defined.

(** ** The designated error is not masked *)

Section Unmasked.
Context `{Backend}.

(** A level that completes with [up] set stops at the [raise] without it:
    every layer call made before the [raise] is one that the completed run
    made too. *)
Lemma level_block_rec_without_up k :
  forall m dim inc acti do bn mp res g t g',
    level_block_rec (S k) m dim inc acti do bn mp true res g = inr (t, g') ->
    level_block_rec (S k) m dim inc acti do bn mp false res g
    = inl (Exception no_upsampling_msg).
Proof.
  assert (forall k' m dim inc acti do bn mp res g,
            level_block_rec (S k') m dim inc acti do bn mp false res g
            = (n <- conv_block m dim acti bn res 0 ;;
               m <- (if mp then call (MaxPooling3D (1, 2, 2)) [n]
                     else call (Conv3D dim 3 2 None same) [n]) ;;
               dim' <- lift (int_mul inc dim) ;;
               m <- level_block_rec k' m dim' inc acti do bn mp false res ;;
               m <- raise (Exception no_upsampling_msg) ;;
               n <- call Concatenate [n; m] ;;
               conv_block n dim acti bn res 0) g) as E by reflexivity.
  induction k as [| k IH]; intros m dim inc acti do bn mp res g t g' Hrun;
    cbn [level_block_rec] in Hrun;
    apply bind_inr in Hrun as (n & g1 & Henc & Hrun);
    apply bind_inr in Hrun as (m1 & g2 & Hdown & Hrun);
    apply bind_inr in Hrun as (dim' & g2' & Hdim & Hrun);
    apply bind_inr in Hrun as (m2 & g3 & Hin & _);
    rewrite E, (bind_run _ _ _ _ _ Henc), (bind_run _ _ _ _ _ Hdown),
      (bind_run _ _ _ _ _ Hdim).
  - change (level_block_rec 0 m1 dim' inc acti do bn mp false res) with
      (conv_block m1 dim' acti bn res do).
    now rewrite (bind_run _ _ _ _ _ Hin).
  - apply IH in Hin. unfold bind at 1. now rewrite Hin.
Qed.

(** X3: when [UNet] with [upconv = true] returns a model and [depth > 0],
    the same call with [upconv = false] raises the program's own exception,
    with the designated message: no refusal of the tensor library comes
    first. *)
Theorem X3_designated_error_not_masked img_shape out_ch start_ch depth
    inc_rate activation dropout batchnorm maxpool residual mdl :
  0 < depth ->
  UNet img_shape out_ch start_ch depth inc_rate activation dropout
       batchnorm maxpool true residual = inr mdl ->
  UNet img_shape out_ch start_ch depth inc_rate activation dropout
       batchnorm maxpool false residual
  = inl (Exception no_upsampling_msg).
Proof.
  intros Hd Hrun.
  apply UNet_inr in Hrun as (i & g1 & o & g2 & Hi & Hl & _ & _).
  unfold level_block in Hl.
  destruct (Z.to_nat depth) as [| k] eqn:Hk; [lia |].
  apply level_block_rec_without_up in Hl.
  unfold UNet, level_block. rewrite Hk, (bind_run _ _ _ _ _ Hi).
  unfold bind at 1. now rewrite Hl.
Qed.

End Unmasked.

Lemma X3_designated_error_not_masked_witness :
  0 < 3 /\
  UNet [8; 64; 64; 1] 1 64 3 (py_float 2 1) "relu" (1 # 2) false true false false
  = inl (Exception no_upsampling_msg).
Proof.
  split; [lia |].
  destruct (UNet [8; 64; 64; 1] 1 64 3 (py_float 2 1) "relu" (1 # 2) false true true false)
    as [e | mdl] eqn:Hrun; [vm_compute in Hrun; discriminate |].
  apply (X3_designated_error_not_masked [8; 64; 64; 1] 1 64 3 (py_float 2 1) "relu"
           (1 # 2) false true false mdl); [lia | exact Hrun].
Defined.

(** ** Channel counts towards the innermost level *)

Section Growth.
Context `{Backend}.

(** With an [int] growth rate nothing is rounded. *)
Lemma level_dim_int start r j :
  level_dim start (PyInt r) j = inr (start * r ^ Z.of_nat j).
Proof.
  apply (level_dim_exact start (PyInt r) r j); [| lia].
  intros i _. reflexivity.
Qed.

Lemma pow_grows start r (i j : nat) :
  1 <= r -> 0 <= start -> (i <= j)%nat ->
  start * r ^ Z.of_nat i <= start * r ^ Z.of_nat j.
Proof.
  intros Hr Hs Hij. apply Z.mul_le_mono_nonneg_l; [exact Hs |].
  apply Z.pow_le_mono_r; lia.
Qed.

(** X4: with a growth rate that is a Python [int] [r >= 1], and
    [start_ch >= 0], no level is narrower than the level above it: the count
    of level [j] below the top is [start_ch * r ^ j], every block
    convolution of a returned model has at least [start_ch] and at most
    [start_ch * r ^ depth] filters.  With a [float] rate the product is
    rounded, and a deeper level can be narrower even for the rate [1.0]:
    [int(1.0 * (2 ** 53 + 1))] is [2 ** 53]. *)
Theorem X4_channels_grow_towards_bottleneck img_shape out_ch start_ch depth r
    activation dropout batchnorm maxpool upconv residual mdl :
  1 <= r -> 0 <= start_ch -> 0 <= depth ->
  UNet img_shape out_ch start_ch depth (PyInt r) activation dropout
       batchnorm maxpool upconv residual = inr mdl ->
  Forall (fun f => start_ch <= f <= start_ch * r ^ depth)
         (block_filters (map op_layer (layers mdl))) /\
  (forall i j : nat,
     (i <= j)%nat ->
     exists a b,
       level_dim start_ch (PyInt r) i = inr a /\
       level_dim start_ch (PyInt r) j = inr b /\
       a <= b) /\
  level_dim (2 ^ 53 + 1) (py_float 1 1) 1 = inr (2 ^ 53).
Proof.
  intros Hr Hs Hd Hrun. split; [| split].
  - rewrite (UNet_layers _ _ _ _ _ _ _ _ _ _ _ _ Hrun).
    change (block_filters (?l :: ?ls))
      with (block_filter l ++ block_filters ls).
    rewrite block_filters_app, block_filters_level_block.
    cbn [block_filter block_filters flat_map Z.eqb andb app Pos.eqb].
    rewrite app_nil_r.
    pose proof (level_order_le (Z.to_nat depth)) as Hle.
    rewrite Forall_forall in Hle.
    apply Forall_forall. intros f Hin.
    apply in_map_iff in Hin as (d & <- & Hin). specialize (Hle d Hin).
    rewrite <- (level_dim_iter _ _ _ _
                  (level_dim_int start_ch r (Z.to_nat depth - d))).
    split.
    + replace start_ch with (start_ch * r ^ Z.of_nat 0) at 1
        by (cbn; lia).
      apply pow_grows; [exact Hr | exact Hs | lia].
    + replace depth with (Z.of_nat (Z.to_nat depth)) at 2 by lia.
      apply pow_grows; [exact Hr | exact Hs | lia].
  - intros i j Hij. do 2 eexists.
    split; [apply level_dim_int |]. split; [apply level_dim_int |].
    now apply pow_grows.
  - vm_compute. reflexivity.
Qed.

End Growth.

Lemma X4_channels_grow_towards_bottleneck_witness :
  exists mdl,
    UNet [8; 64; 64; 1] 1 64 4 (PyInt 2) "relu" (1 # 2)
         false true true false
    = inr mdl /\
    Forall (fun f => 64 <= f <= 1024)
           (block_filters (map op_layer (layers mdl))).
Proof.
  destruct (UNet [8; 64; 64; 1] 1 64 4 (PyInt 2) "relu" (1 # 2)
                 false true true false)
    as [e | mdl] eqn:Hrun; [vm_compute in Hrun; discriminate |].
  exists mdl. split; [reflexivity |].
  apply (X4_channels_grow_towards_bottleneck [8; 64; 64; 1] 1 64 4 2 "relu"
           (1 # 2) false true true false mdl); [lia | lia | lia | exact Hrun].
Defined.

(** ** What a returned model says about the input volume *)

Lemma call_max_pooling_floor n d h w c g :
  tshape n = [d; h; w; c] ->
  call (MaxPooling3D (1, 2, 2)) [n] g
  = emit (MaxPooling3D (1, 2, 2)) [n] [d; h / 2; w / 2; c] g.
Proof.
  intros Hn. unfold call. cbn [map compute_output_shape keras].
  rewrite Hn. cbn [keras_output_shape]. rewrite conv_valid_unit.
  unfold conv_output_length.
  now replace (h - 2 + 1 + 2 - 1) with h by lia;
    replace (w - 2 + 1 + 2 - 1) with w by lia.
Qed.

(** A concatenation that is accepted: the second tensor has the extents of
    the first, and so has the result. *)
Lemma call_concatenate_inr a b d h w c1 g t g' :
  tshape a = [d; h; w; c1] ->
  call Concatenate [a; b] g = inr (t, g') ->
  exists c2, tshape b = [d; h; w; c2] /\ tshape t = [d; h; w; c1 + c2].
Proof.
  intros Ha Hrun. apply call_inr in Hrun as (_ & _ & Hs).
  cbn [map compute_output_shape keras] in Hs. rewrite Ha in Hs.
  cbn [keras_output_shape concat_shapes removelast last] in Hs.
  destruct (dims_eqb (removelast (tshape b)) [d; h; w]) eqn:Hfront;
    [| discriminate Hs].
  apply dims_eqb_eq in Hfront.
  destruct (tshape b) as [| x1 [| x2 [| x3 [| x4 [| x5 rest]]]]];
    cbn in Hfront; try discriminate Hfront.
  injection Hfront as -> -> ->. cbn in Hs. injection Hs as <-.
  now exists x4.
Qed.

(** Whatever its flags, a level that returns gives back the extents it was
    given: its last block works on the merge with the skip tensor. *)
Lemma level_block_keras_preserves k m dim inc acti do bn mp up res g t g' :
  level_block_rec k m dim inc acti do bn mp up res g = inr (t, g') ->
  exists d h w c c',
    tshape m = [d; h; w; c] /\ tshape t = [d; h; w; c'].
Proof.
  destruct k as [| k]; cbn [level_block_rec]; intros Hrun.
  - apply conv_block_keras_inr in Hrun as (d & h & w & c & Hm & Ht).
    now exists d, h, w, c, (if res then c + dim else dim).
  - apply bind_inr in Hrun as (n & g1 & Henc & Hrun).
    apply bind_inr in Hrun as (m1 & g2 & _ & Hrun).
    apply bind_inr in Hrun as (dim' & g2' & _ & Hrun).
    apply bind_inr in Hrun as (m2 & g3 & _ & Hrun).
    apply bind_inr in Hrun as (m3 & g4 & _ & Hrun).
    apply bind_inr in Hrun as (n' & g5 & Hcat & Hdec).
    apply conv_block_keras_inr in Henc as (d & h & w & c & Hm & Hn).
    apply (call_concatenate_inr _ _ _ _ _ _ _ _ _ Hn) in Hcat
      as (c2 & _ & Hn').
    apply conv_block_keras_inr in Hdec as (d' & h' & w' & c' & Hn'' & Ht).
    rewrite Hn' in Hn''. injection Hn'' as <- <- <- <-.
    exists d, h, w, c. eexists. split; [exact Hm | exact Ht].
Qed.

(** One level down and up again: the inner levels ran on the downsampled
    tensor, and the merge was accepted, so upsampling gave exactly the
    extents of the skip tensor. *)
Lemma level_block_keras_step k m d h w c dim inc acti do bn mp up res g t g' :
  tshape m = [d; h; w; c] ->
  level_block_rec (S k) m dim inc acti do bn mp up res g = inr (t, g') ->
  exists m1 g2 m2 g3 c1 dim',
    int_mul inc dim = inr dim' /\
    level_block_rec k m1 dim' inc acti do bn mp up res g2 = inr (m2, g3) /\
    tshape m1 = [if mp then d else (d + 1) / 2;
                 if mp then h / 2 else (h + 1) / 2;
                 if mp then w / 2 else (w + 1) / 2; c1] /\
    d = (if mp then d else (d + 1) / 2) /\
    h = 2 * (if mp then h / 2 else (h + 1) / 2) /\
    w = 2 * (if mp then w / 2 else (w + 1) / 2) /\
    up = true.
Proof.
  intros Hm Hrun. cbn [level_block_rec] in Hrun.
  apply bind_inr in Hrun as (n & g1 & Henc & Hrun).
  apply bind_inr in Hrun as (m1 & g2 & Hdown & Hrun).
  apply bind_inr in Hrun as (dim' & g2' & Hdim & Hrun).
  apply lift_inr in Hdim as (Hdim & ->).
  apply bind_inr in Hrun as (m2 & g3 & Hin & Hrun).
  apply bind_inr in Hrun as (m3 & g4 & Hup & Hrun).
  apply bind_inr in Hrun as (n' & g5 & Hcat & _).
  apply conv_block_keras_inr in Henc as (d0 & h0 & w0 & c0 & Hm0 & Hn).
  rewrite Hm in Hm0. injection Hm0 as <- <- <- <-.
  set (cn := if res then c + dim else dim) in *.
  assert (exists c1,
            tshape m1 = [if mp then d else (d + 1) / 2;
                         if mp then h / 2 else (h + 1) / 2;
                         if mp then w / 2 else (w + 1) / 2; c1])
    as (c1 & Hm1).
  { destruct mp.
    - rewrite (call_max_pooling_floor n d h w cn g1 Hn) in Hdown.
      injection Hdown as <- _. now exists cn.
    - rewrite (call_strided_conv n d h w cn dim None g1 Hn) in Hdown.
      injection Hdown as <- _. now exists dim. }
  destruct up; [| discriminate Hup].
  apply bind_inr in Hup as (u & gu & Hu & Hconv).
  pose proof (level_block_keras_preserves _ _ _ _ _ _ _ _ _ _ _ _ _ Hin)
    as (d1 & h1 & w1 & c1' & c2 & Hm1' & Hm2).
  rewrite Hm1 in Hm1'. injection Hm1' as <- <- <- <-.
  rewrite (call_up_sampling m2 _ _ _ c2 g3 Hm2) in Hu.
  injection Hu as <- <-.
  rewrite (call_same_conv _ _ _ _ c2) in Hconv by reflexivity.
  injection Hconv as <- _.
  apply (call_concatenate_inr _ _ _ _ _ _ _ _ _ Hn) in Hcat
    as (c3 & Hb & _).
  cbn [tshape] in Hb. injection Hb as Hd Hh Hw _.
  exists m1, g2, m2, g3, c1, dim'. repeat split; auto.
Qed.

Lemma level_block_keras_divides k :
  forall m d h w c dim inc acti do bn mp up res g t g',
    tshape m = [d; h; w; c] ->
    level_block_rec k m dim inc acti do bn mp up res g = inr (t, g') ->
    (2 ^ Z.of_nat k | h) /\ (2 ^ Z.of_nat k | w).
Proof.
  induction k as [| k IH];
    intros m d h w c dim inc acti do bn mp up res g t g' Hm Hrun.
  - split; apply Z.divide_1_l.
  - destruct (level_block_keras_step _ _ _ _ _ _ _ _ _ _ _ _ _ _ _ _ _
                Hm Hrun)
      as (m1 & g2 & m2 & g3 & c1 & dim' & _ & Hin & Hm1 & _ & Hh & Hw & _).
    destruct (IH _ _ _ _ _ _ _ _ _ _ _ _ _ _ _ _ Hm1 Hin) as [[qh Dh] [qw Dw]].
    rewrite Nat2Z.inj_succ, Z.pow_succ_r by lia. split.
    + exists qh. rewrite Hh, Dh. ring.
    + exists qw. rewrite Hw, Dw. ring.
Qed.

(** X5: [UNet] returns a model only for an [img_shape] of four entries;
    the input tensor of the model then has that shape, and the output
    tensor the same three spatial extents with [out_ch] channels, whatever
    the flags. *)
Theorem X5_returned_model_keeps_extents img_shape out_ch start_ch depth
    inc_rate activation dropout batchnorm maxpool upconv residual mdl :
  UNet img_shape out_ch start_ch depth inc_rate activation dropout
       batchnorm maxpool upconv residual = inr mdl ->
  exists D H W C,
    img_shape = [D; H; W; C] /\
    tshape (inputs mdl) = [D; H; W; C] /\
    tshape (outputs mdl) = [D; H; W; out_ch].
Proof.
  intros Hrun.
  apply UNet_inr in Hrun as (i & g1 & o & g2 & Hi & Hl & Hc & ->).
  apply call_inr in Hi as (_ & _ & Hi).
  cbn [map compute_output_shape keras keras_output_shape] in Hi.
  injection Hi as Hi.
  apply level_block_keras_preserves in Hl
    as (D & H & W & C & c' & Hshape & Ho).
  exists D, H, W, C. rewrite <- Hi in Hshape.
  repeat split; try assumption; [now rewrite <- Hi |].
  rewrite (call_pointwise_conv o D H W c' out_ch _ g2 Ho) in Hc.
  now injection Hc as <- _.
Qed.

(** X6: a model is returned only when the height and the width of the
    volume are multiples of [2 ^ depth], with pooling as with the strided
    convolution, and whatever the other arguments are. *)
Theorem X6_extents_must_be_multiples D H W C out_ch start_ch depth inc_rate
    activation dropout batchnorm maxpool upconv residual mdl :
  0 <= depth ->
  UNet [D; H; W; C] out_ch start_ch depth inc_rate activation dropout
       batchnorm maxpool upconv residual = inr mdl ->
  (2 ^ depth | H) /\ (2 ^ depth | W).
Proof.
  intros Hd Hrun.
  apply UNet_inr in Hrun as (i & g1 & o & g2 & Hi & Hl & _ & _).
  apply call_inr in Hi as (_ & _ & Hi).
  cbn [map compute_output_shape keras keras_output_shape] in Hi.
  injection Hi as Hi. symmetry in Hi.
  unfold level_block in Hl.
  pose proof (level_block_keras_divides _ _ _ _ _ _ _ _ _ _ _ _ _ _ _ _ _
                Hi Hl) as Hdiv.
  now rewrite Z2Nat.id in Hdiv by lia.
Qed.

(** X7: with [maxpool = false] and [depth > 0], a model is returned only
    for a volume whose first extent is 1 (or 0): the strided convolution
    halves that extent too, the upsampling does not give it back, and for
    two slices or more the merge with the skip tensor is refused. *)
Theorem X7_strided_path_needs_one_slice D H W C out_ch start_ch depth inc_rate
    activation dropout batchnorm upconv residual :
  0 < depth ->
  (forall mdl,
     UNet [D; H; W; C] out_ch start_ch depth inc_rate activation dropout
          batchnorm false upconv residual = inr mdl ->
     D = 0 \/ D = 1) /\
  (2 <= D ->
   exists e,
     UNet [D; H; W; C] out_ch start_ch depth inc_rate activation dropout
          batchnorm false upconv residual = inl e).
Proof.
  intros Hd.
  assert (forall mdl,
            UNet [D; H; W; C] out_ch start_ch depth inc_rate activation
                 dropout batchnorm false upconv residual = inr mdl ->
            D = 0 \/ D = 1) as Hone.
  { intros mdl Hrun.
    apply UNet_inr in Hrun as (i & g1 & o & g2 & Hi & Hl & _ & _).
    apply call_inr in Hi as (_ & _ & Hi).
    cbn [map compute_output_shape keras keras_output_shape] in Hi.
    injection Hi as Hi. symmetry in Hi.
    unfold level_block in Hl.
    destruct (Z.to_nat depth) as [| k] eqn:Hk; [lia |].
    destruct (level_block_keras_step _ _ _ _ _ _ _ _ _ _ _ _ _ _ _ _ _
                Hi Hl) as (_ & _ & _ & _ & _ & _ & _ & _ & _ & HD & _).
    cbv iota in HD.
    pose proof (Z.div_mod (D + 1) 2 ltac:(lia)) as Hdiv.
    pose proof (Z.mod_pos_bound (D + 1) 2 ltac:(lia)) as Hmod.
    lia. }
  split; [exact Hone |].
  intros HD.
  destruct (UNet [D; H; W; C] out_ch start_ch depth inc_rate activation
                 dropout batchnorm false upconv residual) as [e | mdl] eqn:Hrun.
  - now exists e.
  - destruct (Hone mdl eq_refl); lia.
Qed.

Lemma X5_returned_model_keeps_extents_witness :
  exists mdl,
    UNet [8; 64; 64; 3] 2 16 2 (py_float 2 1) "relu" 0 true true true true = inr mdl /\
    tshape (inputs mdl) = [8; 64; 64; 3] /\
    tshape (outputs mdl) = [8; 64; 64; 2].
Proof.
  destruct (UNet [8; 64; 64; 3] 2 16 2 (py_float 2 1) "relu" 0 true true true true)
    as [e | mdl] eqn:Hrun; [vm_compute in Hrun; discriminate |].
  destruct (X5_returned_model_keeps_extents [8; 64; 64; 3] 2 16 2 (py_float 2 1) "relu" 0
              true true true true mdl Hrun)
    as (D & H & W & C & Hshape & Hi & Ho).
  injection Hshape as <- <- <- <-.
  exists mdl. split; [reflexivity |]. split; [exact Hi | exact Ho].
Defined.

Lemma X6_extents_must_be_multiples_witness :
  exists mdl,
    UNet [8; 96; 64; 1] 1 16 3 (py_float 2 1) "relu" (1 # 2) false true true false
    = inr mdl /\
    (2 ^ 3 | 96) /\ (2 ^ 3 | 64).
Proof.
  destruct (UNet [8; 96; 64; 1] 1 16 3 (py_float 2 1) "relu" (1 # 2) false true true false)
    as [e | mdl] eqn:Hrun; [vm_compute in Hrun; discriminate |].
  exists mdl. split; [reflexivity |].
  assert (0 <= 3) as Hd by lia.
  exact (X6_extents_must_be_multiples 8 96 64 1 1 16 3 (py_float 2 1) "relu" (1 # 2)
           false true true false mdl Hd Hrun).
Defined.

Lemma X7_strided_path_needs_one_slice_witness :
  (0 < 2 /\ 2 <= 8) /\
  exists e,
    UNet [8; 64; 64; 1] 1 16 2 (py_float 2 1) "relu" (1 # 2) false false true false
    = inl e.
Proof.
  split; [lia |].
  assert (0 < 2) as Hd by lia. assert (2 <= 8) as HD by lia.
  exact (proj2 (X7_strided_path_needs_one_slice 8 64 64 1 1 16 2 (py_float 2 1) "relu"
                  (1 # 2) false true false Hd) HD).
Defined.

(** ** The strided path on a single slice *)

Lemma half_up_even x : (2 * x + 1) / 2 = x.
Proof.
  symmetry. apply (Z.div_unique (2 * x + 1) 2 x 1); lia.
Qed.

Lemma level_block_keras_strided k :
  forall m h w c dim inc acti do bn res g bottleneck,
    tshape m = [1; 2 ^ Z.of_nat k * h; 2 ^ Z.of_nat k * w; c] ->
    level_dim dim inc k = inr bottleneck ->
    exists t g' c',
      level_block_rec k m dim inc acti do bn false true res g = inr (t, g') /\
      tshape t = [1; 2 ^ Z.of_nat k * h; 2 ^ Z.of_nat k * w; c'].
Proof.
  induction k as [| k IH];
    intros m h w c dim inc acti do bn res g bottleneck Hm Hdims.
  - cbn [level_block_rec].
    destruct (conv_block_keras_shape m 1 _ _ c dim acti bn res do g Hm)
      as (t & g' & Hrun & Ht).
    now exists t, g', (if res then c + dim else dim).
  - assert (forall x, 2 ^ Z.of_nat (S k) * x = 2 * (2 ^ Z.of_nat k * x)) as E.
    { intros x. rewrite Nat2Z.inj_succ, Z.pow_succ_r by lia. ring. }
    rewrite !E in *.
    set (H := 2 ^ Z.of_nat k * h) in *. set (W := 2 ^ Z.of_nat k * w) in *.
    rewrite level_dim_step in Hdims.
    destruct (int_mul inc dim) as [e | dim'] eqn:Hdim; [discriminate |].
    cbn [level_block_rec].
    destruct (conv_block_keras_shape m 1 _ _ c dim acti bn res 0 g Hm)
      as (n & g1 & Henc & Hn).
    set (cn := if res then c + dim else dim) in *.
    rewrite (bind_run _ _ _ _ _ Henc).
    unfold bind at 1.
    rewrite (call_strided_conv n 1 (2 * H) (2 * W) cn dim None g1 Hn).
    rewrite !half_up_even. change ((1 + 1) / 2) with 1.
    unfold emit at 1.
    set (m1 := {| tid := length g1; tshape := _ |}).
    set (g2 := _ :: g1).
    unfold bind at 1. rewrite Hdim. unfold lift at 1.
    destruct (IH m1 h w dim dim' inc acti do bn res g2 bottleneck
                 eq_refl Hdims) as (m2 & g3 & c2 & Hin & Hm2).
    rewrite (bind_run _ _ _ _ _ Hin).
    fold H W in Hm2.
    unfold bind at 1. unfold bind at 1.
    rewrite (call_up_sampling m2 1 H W c2 g3 Hm2). unfold emit at 1.
    rewrite (call_same_conv _ 1 (2 * H) (2 * W) c2) by reflexivity.
    unfold emit at 1.
    unfold bind at 1.
    rewrite (call_concatenate n _ 1 (2 * H) (2 * W) _ dim)
      by (exact Hn || reflexivity).
    unfold emit at 1.
    match goal with
    | |- context [conv_block ?n' dim acti bn res 0 ?g'] =>
        destruct (conv_block_keras_shape n' 1 (2 * H) (2 * W) (cn + dim) dim
                    acti bn res 0 g' eq_refl)
          as (t & g5 & Hdec & Ht)
    end.
    eexists t, g5, _. split; [exact Hdec | exact Ht].
Qed.

(** X8: on a single slice the strided path does build: with
    [maxpool = false] and [upconv = true], on a volume [(1, H, W, C)] whose
    height and width are multiples of [2 ^ depth], and with channel counts
    that can be computed at every level, there is a model with output shape
    [(1, H, W, out_ch)], whose operations have the shapes of the shape
    rules, and which [UNet] returns with every tensor library that accepts
    these operations. *)
Theorem X8_strided_path_on_one_slice H W C out_ch start_ch depth inc_rate
    activation dropout batchnorm residual bottleneck :
  0 <= depth ->
  (2 ^ depth | H) -> (2 ^ depth | W) ->
  level_dim start_ch inc_rate (Z.to_nat depth) = inr bottleneck ->
  exists mdl,
    tshape (inputs mdl) = [1; H; W; C] /\
    tshape (outputs mdl) = [1; H; W; out_ch] /\
    accepts keras (layers mdl) = true /\
    forall B : Backend,
      accepts B (layers mdl) = true ->
      @UNet B [1; H; W; C] out_ch start_ch depth inc_rate activation dropout
            batchnorm false true residual = inr mdl.
Proof.
  intros Hd [h Hh] [w Hw] Hdims.
  assert (exists mdl,
            @UNet keras [1; H; W; C] out_ch start_ch depth inc_rate
                  activation dropout batchnorm false true residual
            = inr mdl /\
            tshape (inputs mdl) = [1; H; W; C] /\
            tshape (outputs mdl) = [1; H; W; out_ch])
    as (mdl & Hrun & Hi & Ho).
  { unfold UNet, level_block.
    unfold bind at 1. unfold call at 1. cbn [compute_output_shape keras map
      keras_output_shape]. unfold emit at 1.
    set (i := {| tid := length (@nil op); tshape := _ |}).
    set (g1 := [_]).
    destruct (level_block_keras_strided (Z.to_nat depth) i h w C start_ch
                inc_rate activation dropout batchnorm residual g1 bottleneck)
      as (o & g2 & c' & Hrun & Ho); [| exact Hdims |].
    { subst i. cbn [tshape]. rewrite Z2Nat.id by lia. do 2 f_equal; [lia |].
      f_equal. lia. }
    rewrite (bind_run _ _ _ _ _ Hrun).
    unfold bind at 1.
    rewrite (call_pointwise_conv o _ _ _ _ out_ch _ g2 Ho).
    unfold emit, ret. eexists. split; [reflexivity |].
    cbn [inputs outputs tshape]. subst i. cbn [tshape].
    rewrite Z2Nat.id by lia.
    replace (2 ^ depth * h) with H by lia.
    replace (2 ^ depth * w) with W by lia.
    now split. }
  exists mdl. split; [exact Hi |]. split; [exact Ho |].
  split; [now apply (UNet_follows keras keras _ _ _ _ _ _ _ _ _ _ _ _ Hrun) |].
  intros B HB.
  now apply (UNet_follows keras B _ _ _ _ _ _ _ _ _ _ _ _ Hrun).
Qed.

Lemma X8_strided_path_on_one_slice_witness :
  exists mdl,
    tshape (outputs mdl) = [1; 64; 32; 2] /\
    UNet [1; 64; 32; 1] 2 16 3 (py_float 2 1) "relu" (1 # 2)
         true false true true
    = inr mdl.
Proof.
  destruct (X8_strided_path_on_one_slice 64 32 1 2 16 3 (py_float 2 1) "relu"
              (1 # 2) true true 128) as (mdl & Hi & Ho & Hok & Hrun).
  - lia.
  - exists 8. reflexivity.
  - exists 4. reflexivity.
  - vm_compute. reflexivity.
  - exists mdl. split; [exact Ho |]. apply (Hrun keras). exact Hok.
Defined.

(** ** A shape that is not a volume *)

Lemma conv_refuses_other_ranks f k s a p (sh : shape) :
  length sh <> 4%nat -> keras_output_shape (Conv3D f k s a p) [sh] = None.
Proof.
  destruct sh as [| d [| h [| w [| c [| x rest]]]]]; cbn [length];
    intros Hlen; try reflexivity.
  now contradiction Hlen.
Qed.

(** X9: an [img_shape] that does not have exactly four entries is not
    looked at by the program; the input tensor is created, and the first
    convolution, with [start_ch] filters, is what the library refuses, at
    every depth and for all flags (also with [upconv = false]). *)
Theorem X9_shape_is_checked_by_first_convolution img_shape out_ch start_ch
    depth inc_rate activation dropout batchnorm maxpool upconv residual :
  length img_shape <> 4%nat ->
  UNet img_shape out_ch start_ch depth inc_rate activation dropout
       batchnorm maxpool upconv residual
  = inl (BackendError (Conv3D start_ch 3 1 (Some activation) same)
                      [img_shape]).
Proof.
  intros Hlen.
  assert (forall i do g,
            tshape i = img_shape ->
            conv_block i start_ch activation batchnorm residual do g
            = inl (BackendError (Conv3D start_ch 3 1 (Some activation) same)
                                [img_shape])) as Hcb.
  { intros i do g Hi. unfold conv_block, bind, call.
    cbn [map compute_output_shape keras]. rewrite Hi.
    now rewrite conv_refuses_other_ranks. }
  unfold UNet, level_block.
  unfold bind at 1. unfold call at 1.
  cbn [compute_output_shape keras map keras_output_shape]. unfold emit at 1.
  unfold bind at 1.
  destruct (Z.to_nat depth); cbn [level_block_rec].
  - now rewrite Hcb.
  - unfold bind at 1. now rewrite Hcb.
Qed.

Lemma X9_shape_is_checked_by_first_convolution_witness :
  UNet [64; 64; 1] 1 64 4 (py_float 2 1) "relu" (1 # 2) false true false false
  = inl (BackendError (Conv3D 64 3 1 (Some "relu"%string) same) [[64; 64; 1]]).
Proof.
  apply X9_shape_is_checked_by_first_convolution. discriminate.
Defined.

(** ** The parameters of the layers *)

Section Parameters.
Context `{Backend}.

Lemma conv_block_as_configured img_shape out_ch activation dropout bn mp
    dim res do :
  (truthy do = true -> do = dropout) ->
  Forall (as_configured img_shape out_ch activation dropout bn mp)
         (conv_block_layers dim activation bn res do).
Proof.
  intros Hdo. unfold conv_block_layers.
  destruct bn, res, (truthy do) eqn:Ht; cbn [app];
    repeat (apply Forall_cons; [cbn; auto; try tauto |]);
    try apply Forall_nil.
  all: split; [now apply Hdo | now rewrite <- (Hdo eq_refl)].
Qed.

Lemma level_block_as_configured img_shape out_ch activation dropout bn mp
    res k :
  forall dim inc,
    Forall (as_configured img_shape out_ch activation dropout bn mp)
           (level_block_layers k dim inc activation dropout bn mp res).
Proof.
  induction k as [| k IH]; intros dim inc; cbn [level_block_layers].
  - now apply conv_block_as_configured.
  - apply Forall_app. split;
      [apply conv_block_as_configured; discriminate |].
    apply Forall_app. split.
    { repeat (apply Forall_cons; [cbn; auto; try tauto |]).
      apply Forall_nil. }
    apply Forall_app. split; [apply IH |].
    apply Forall_app. split;
      [| apply conv_block_as_configured; discriminate].
    destruct mp; (apply Forall_cons; [cbn; auto; try tauto |]);
      apply Forall_nil.
Qed.

(** X10: every layer of a returned model has the parameters that the
    program writes for its role: block convolutions and up-convolutions
    carry [activation] and the padding [same]; the strided downsampling
    convolution has no activation; the one pointwise convolution has
    [out_ch] filters, sigmoid and the padding [valid]; pooling and
    upsampling have the size (1, 2, 2); a dropout has the rate [dropout];
    pooling occurs only under [maxpool], a strided convolution only without
    it, a normalization only under [batchnorm]. *)
Theorem X10_layers_as_configured img_shape out_ch start_ch depth inc_rate
    activation dropout batchnorm maxpool upconv residual mdl :
  UNet img_shape out_ch start_ch depth inc_rate activation dropout
       batchnorm maxpool upconv residual = inr mdl ->
  Forall (as_configured img_shape out_ch activation dropout batchnorm maxpool)
         (map op_layer (layers mdl)).
Proof.
  intros Hrun. rewrite (UNet_layers _ _ _ _ _ _ _ _ _ _ _ _ Hrun).
  apply Forall_cons; [cbn; auto |].
  apply Forall_app. split; [apply level_block_as_configured |].
  apply Forall_cons; [reflexivity | apply Forall_nil].
Qed.

End Parameters.

Lemma X10_layers_as_configured_witness :
  exists mdl,
    UNet [8; 64; 64; 1] 1 16 2 (py_float 2 1) "elu" (1 # 4) true true true false
    = inr mdl /\
    Forall (as_configured [8; 64; 64; 1] 1 "elu" (1 # 4) true true)
           (map op_layer (layers mdl)).
Proof.
  destruct (UNet [8; 64; 64; 1] 1 16 2 (py_float 2 1) "elu" (1 # 4) true true true false)
    as [e | mdl] eqn:Hrun; [vm_compute in Hrun; discriminate |].
  exists mdl. split; [reflexivity |].
  exact (X10_layers_as_configured [8; 64; 64; 1] 1 16 2 (py_float 2 1) "elu" (1 # 4)
           true true true false mdl Hrun).
Defined.

(** ** The feature map that reaches the final convolution *)

Lemma level_block_keras_channels k m d h w c dim inc acti do bn mp up res
    g t g' :
  tshape m = [d; h; w; c] ->
  level_block_rec k m dim inc acti do bn mp up res g = inr (t, g') ->
  tshape t = [d; h; w;
              if res then match k with
                          | O => c + dim
                          | S _ => c + 3 * dim
                          end
              else dim].
Proof.
  intros Hm Hrun. destruct k as [| k]; cbn [level_block_rec] in Hrun.
  - apply conv_block_keras_inr in Hrun as (d0 & h0 & w0 & c0 & Hm0 & Ht).
    rewrite Hm in Hm0. now injection Hm0 as <- <- <- <-.
  - apply bind_inr in Hrun as (n & g1 & Henc & Hrun).
    apply bind_inr in Hrun as (m1 & g2 & _ & Hrun).
    apply bind_inr in Hrun as (dim' & g2' & _ & Hrun).
    apply bind_inr in Hrun as (m2 & g3 & Hin & Hrun).
    apply bind_inr in Hrun as (m3 & g4 & Hup & Hrun).
    apply bind_inr in Hrun as (n' & g5 & Hcat & Hdec).
    apply conv_block_keras_inr in Henc as (d0 & h0 & w0 & c0 & Hm0 & Hn).
    rewrite Hm in Hm0. injection Hm0 as <- <- <- <-.
    destruct up; [| discriminate Hup].
    apply bind_inr in Hup as (u & gu & Hu & Hconv).
    apply level_block_keras_preserves in Hin
      as (d1 & h1 & w1 & c1 & c2 & _ & Hm2).
    rewrite (call_up_sampling m2 _ _ _ c2 g3 Hm2) in Hu.
    injection Hu as <- <-.
    rewrite (call_same_conv _ _ _ _ c2) in Hconv by reflexivity.
    injection Hconv as <- _.
    apply (call_concatenate_inr _ _ _ _ _ _ _ _ _ Hn) in Hcat
      as (c3 & Hb & Hn').
    cbn [tshape] in Hb. injection Hb as _ _ _ <-.
    apply conv_block_keras_inr in Hdec as (d' & h' & w' & c' & Hn'' & Ht).
    rewrite Hn' in Hn''. injection Hn'' as <- <- <- <-.
    rewrite Ht. destruct res; [| reflexivity].
    replace (c + dim + dim + dim) with (c + 3 * dim) by lia. reflexivity.
Qed.

(** X11: the tensor that the final convolution reads has the spatial
    extents of the input and [start_ch] channels; under [residual] it has
    the channels of the input volume on top of [start_ch] when
    [depth <= 0], and on top of [3 * start_ch] when [depth > 0] (skip
    tensor, up-convolution and last block convolution, concatenated). *)
Theorem X11_channels_before_final_convolution D H W C out_ch start_ch depth
    inc_rate activation dropout batchnorm maxpool upconv residual mdl :
  UNet [D; H; W; C] out_ch start_ch depth inc_rate activation dropout
       batchnorm maxpool upconv residual = inr mdl ->
  exists o earlier,
    layers mdl =
      {| op_layer := Conv3D out_ch 1 1 (Some "sigmoid"%string) valid;
         op_inputs := [o];
         op_output := outputs mdl |} :: earlier /\
    tshape o = [D; H; W;
                if residual
                then if 0 <? depth then C + 3 * start_ch else C + start_ch
                else start_ch].
Proof.
  intros Hrun.
  apply UNet_inr in Hrun as (i & g1 & o & g2 & Hi & Hl & Hc & _).
  apply call_inr in Hi as (_ & _ & Hi).
  cbn [map compute_output_shape keras keras_output_shape] in Hi.
  injection Hi as Hi. symmetry in Hi.
  apply call_inr in Hc as (Hg & _ & _).
  exists o, g2. split; [exact Hg |].
  unfold level_block in Hl.
  rewrite (level_block_keras_channels _ _ _ _ _ _ _ _ _ _ _ _ _ _ _ _ _
             Hi Hl).
  destruct residual; [| reflexivity].
  destruct (0 <? depth) eqn:Hd.
  - apply Z.ltb_lt in Hd.
    now destruct (Z.to_nat depth) eqn:Hk; [lia |].
  - apply Z.ltb_ge in Hd. now replace (Z.to_nat depth) with O by lia.
Qed.

Lemma X11_channels_before_final_convolution_witness :
  exists mdl o earlier,
    UNet [8; 64; 64; 2] 1 16 2 (py_float 2 1) "relu" (1 # 2) false true true true
    = inr mdl /\
    layers mdl =
      {| op_layer := Conv3D 1 1 1 (Some "sigmoid"%string) valid;
         op_inputs := [o];
         op_output := outputs mdl |} :: earlier /\
    tshape o = [8; 64; 64; 2 + 3 * 16].
Proof.
  destruct (UNet [8; 64; 64; 2] 1 16 2 (py_float 2 1) "relu" (1 # 2) false true true true)
    as [e | mdl] eqn:Hrun; [vm_compute in Hrun; discriminate |].
  destruct (X11_channels_before_final_convolution 8 64 64 2 1 16 2 (py_float 2 1) "relu"
              (1 # 2) false true true true mdl Hrun)
    as (o & earlier & Hl & Ho).
  exists mdl, o, earlier. split; [reflexivity |]. split; assumption.
Defined.
